(** * fake_data_generator.py: registry, row builder, dataset assembler, serializers

    A shallow embedding of [src/fake_data_generator.py].  The Faker provider,
    the [csv] module and the [json] module are libraries outside the
    repository: the provider is a parameter (a table of callables over an
    abstract generator state), [csv] and [json] are modelled for exactly the
    configuration the program selects (excel dialect, [extrasaction="raise"],
    [ensure_ascii=False], [indent=2]).

    Python [str] is [string]; a character is a code point below 256. *)

From Stdlib Require Import ZArith Ascii String List Lia.
From stdpp Require Import base option list strings gmap.

Local Open Scope Z_scope.

(** ** Python values and exceptions *)

Inductive exn :=
| AttributeError (name : string)
| TypeError
| ValueError
| OSError
| CsvError.

Inductive result (A : Type) :=
| Ok (a : A)
| Raise (e : exn).
Arguments Ok {A} a.
Arguments Raise {A} e.

(** A float is known by what the program observes of it: its [repr()] and the
    [repr()] of [float(f"{x:.2f}")]. *)
Record pyfloat := PyFloat { float_repr : string; float_2f : string }.

(** Any other object (date, int, tuple, ...), again by its observations:
    [str(o)], [o.isoformat()] when it has that method, the text [json] emits
    for it when it can serialise it, and what [float(f"{o:.2f}")] does: the
    [repr()] of the float, or the error raised (ValueError for a date, whose
    format is not a number; TypeError for an object that takes no format). *)
Record pyobject := PyObject {
  obj_str : string;
  obj_isoformat : option string;
  obj_json : option string;
  obj_2f : result string
}.

Inductive value :=
| VNone
| VStr (s : string)
| VFloat (x : pyfloat)
| VObj (o : pyobject).

(** An [int] literal (written in decimal) and [True], as they are passed in
    keyword arguments. *)
Definition py_int (digits : string) : value :=
  VObj (PyObject digits None (Some digits) (Ok (digits +:+ ".0"))).
Definition py_True : value :=
  VObj (PyObject "True" None (Some "true") (Ok "1.0")).

Global Instance result_ret : MRet result := fun A a => Ok a.
Global Instance result_bind : MBind result := fun A B f m =>
  match m with
  | Ok a => f a
  | Raise e => Raise e
  end.

Global Instance result_fmap : FMap result := fun A B f m =>
  match m with
  | Ok a => Ok (f a)
  | Raise e => Raise e
  end.

Definition is_ok {A} (r : result A) : bool :=
  match r with Ok _ => true | Raise _ => false end.

(** ** Strings: [str.strip] and [str.split] *)

(** [str.isspace] on the code points below 256. *)
Definition isspace (c : ascii) : bool :=
  let n := N_of_ascii c in
  ((9 <=? n) && (n <=? 13) || (28 <=? n) && (n <=? 32)
   || (n =? 133) || (n =? 160))%N.

Fixpoint lstrip (s : string) : string :=
  match s with
  | String c s' => if isspace c then lstrip s' else s
  | EmptyString => EmptyString
  end.

Fixpoint rstrip (s : string) : string :=
  match s with
  | String c s' =>
      match rstrip s' with
      | EmptyString => if isspace c then EmptyString else String c EmptyString
      | r => String c r
      end
  | EmptyString => EmptyString
  end.

Definition strip (s : string) : string := lstrip (rstrip s).

(** Whitespace only; whitespace first; whitespace last. *)
Fixpoint all_space (s : string) : bool :=
  match s with
  | EmptyString => true
  | String c s' => isspace c && all_space s'
  end.

Definition starts_with_space (s : string) : bool :=
  match s with
  | EmptyString => false
  | String c _ => isspace c
  end.

Fixpoint ends_with_space (s : string) : bool :=
  match s with
  | EmptyString => false
  | String c s' =>
      match s' with
      | EmptyString => isspace c
      | _ => ends_with_space s'
      end
  end.

(** [s.split(sep)] for a one-character separator: never empty. *)
Fixpoint split (sep : ascii) (s : string) : list string :=
  match s with
  | EmptyString => [EmptyString]
  | String c s' =>
      if decide (c = sep) then EmptyString :: split sep s'
      else match split sep s' with
           | x :: xs => String c x :: xs
           | [] => [String c EmptyString]
           end
  end.

(** [c in s]. *)
Fixpoint has_char (c : ascii) (s : string) : bool :=
  match s with
  | EmptyString => false
  | String d s' => bool_decide (d = c) || has_char c s'
  end.

(** ** Records: a [dict] keeps insertion order, assignment to a present key
    replaces the value in place *)

Definition dict := list (string * value).

Fixpoint dict_set (k : string) (v : value) (d : dict) : dict :=
  match d with
  | [] => [(k, v)]
  | (k', v') :: d' =>
      if decide (k' = k) then (k', v) :: d' else (k', v') :: dict_set k v d'
  end.

Fixpoint dict_get (k : string) (d : dict) : option value :=
  match d with
  | [] => None
  | (k', v') :: d' => if decide (k' = k) then Some v' else dict_get k d'
  end.

Definition keys (d : dict) : list string := d.*1.

(** The order in which a dict built by assigning [ks] from left to right lists
    its keys: first occurrences. *)
Fixpoint first_occurrences (seen ks : list string) : list string :=
  match ks with
  | [] => []
  | k :: ks' =>
      if decide (k ∈ seen) then first_occurrences seen ks'
      else k :: first_occurrences (k :: seen) ks'
  end.

(** ** The provider *)

Section Program.
Context {St : Type}.

Definition kwargs := list (string * value).

(** A zero-argument callable run at clock reading [now] in generator state
    [st]: a value and the next state, or an exception. *)
Definition gen := Z → St → result (value * St).

(** A provider attribute called with keyword arguments.  An attribute that is
    not callable is a callable that raises [TypeError]. *)
Definition callable := kwargs → gen.

Record Faker := { getattr : string → option callable }.

Definition hasattr (fake : Faker) (name : string) : bool :=
  match getattr fake name with Some _ => true | None => false end.

(** [fake.name(k1=v1, ...)]: attribute lookup, then the call. *)
Definition call (fake : Faker) (name : string) (kw : kwargs) : gen :=
  fun now st =>
    match getattr fake name with
    | Some m => m kw now st
    | None => Raise (AttributeError name)
    end.

(** [g().post()] for a pure post-processing step. *)
Definition and_then (g : gen) (post : value → result value) : gen :=
  fun now st =>
    '(v, st') ← g now st;
    v' ← post v;
    Ok (v', st').

Definition isoformat (v : value) : result value :=
  match v with
  | VObj o =>
      match obj_isoformat o with
      | Some s => Ok (VStr s)
      | None => Raise (AttributeError "isoformat")
      end
  | _ => Raise (AttributeError "isoformat")
  end.

(** [float(f"{v:.2f}")]. *)
Definition float_of_2f (v : value) : result value :=
  match v with
  | VFloat x => Ok (VFloat (PyFloat (float_2f x) (float_2f x)))
  | VObj o =>
      match obj_2f o with
      | Ok r => Ok (VFloat (PyFloat r r))
      | Raise e => Raise e
      end
  | VStr _ => Raise ValueError
  | VNone => Raise TypeError
  end.

(** ** get_field_generators *)

(** The three shapes of value in the dict literal. *)
Inductive binding :=
| Bound (attr : string)                 (* fake.attr *)
| BoundOr (attr : string) (dflt : gen)  (* getattr(fake, attr, dflt) *)
| Lambda (body : gen).                  (* lambda: body *)

Definition registry_literal (fake : Faker) : list (string * binding) :=
  [ ("nome", Bound "name");
    ("primeiro_nome", Bound "first_name");
    ("sobrenome", Bound "last_name");
    ("email", Bound "email");
    ("usuario", Bound "user_name");
    ("senha", Bound "password");
    ("data_nascimento",
      Lambda (and_then (call fake "date_of_birth"
                          [("minimum_age", py_int "18"); ("maximum_age", py_int "80")])
                       isoformat));
    ("cpf", Lambda (call fake "cpf" []));
    ("cnpj", Lambda (call fake "cnpj" []));
    ("rg", Lambda (call fake "rg" []));
    ("telefone", Lambda (call fake "phone_number" []));
    ("celular",
      Lambda (if hasattr fake "cellphone_number"
              then call fake "cellphone_number" []
              else call fake "phone_number" []));
    ("uuid", Bound "uuid4");
    ("endereco", Bound "street_address");
    ("bairro", BoundOr "bairro" (call fake "secondary_address" []));
    ("cidade", Bound "city");
    ("estado", Bound "state");
    ("cep", Bound "postcode");
    ("pais", Bound "country");
    ("empresa", Bound "company");
    ("cargo", Bound "job");
    ("cnpj_empresa", Lambda (call fake "cnpj" []));
    ("url", Bound "url");
    ("dominio", Bound "domain_name");
    ("ip", Bound "ipv4");
    ("preco",
      Lambda (and_then (call fake "pyfloat"
                          [("left_digits", py_int "3"); ("right_digits", py_int "2");
                           ("positive", py_True)])
                       float_of_2f));
    ("moeda", Bound "currency_code");
    ("cartao_credito", Bound "credit_card_number");
    ("data", Lambda (and_then (call fake "date" []) isoformat));
    ("hora", Lambda (call fake "time" []));
    ("timestamp",
      Lambda (and_then (call fake "date_time_between"
                          [("start_date", VStr "-2y"); ("end_date", VStr "now")])
                       isoformat));
    ("frase", Bound "sentence");
    ("texto",
      Lambda (call fake "text" [("max_nb_chars", py_int "140")])) ].

(** Evaluating one value of the literal: only [fake.attr] can fail. *)
Definition eval_binding (fake : Faker) (b : binding) : result gen :=
  match b with
  | Bound a =>
      match getattr fake a with
      | Some m => Ok (m [])
      | None => Raise (AttributeError a)
      end
  | BoundOr a dflt =>
      Ok (match getattr fake a with Some m => m [] | None => dflt end)
  | Lambda body => Ok body
  end.

(** The entries are evaluated in the order they are written. *)
Fixpoint eval_literal (fake : Faker) (l : list (string * binding))
  : result (list (string * gen)) :=
  match l with
  | [] => Ok []
  | (k, b) :: l' =>
      g ← eval_binding fake b;
      gs ← eval_literal fake l';
      Ok ((k, g) :: gs)
  end.

Definition get_field_generators (fake : Faker) : result (gmap string gen) :=
  gs ← eval_literal fake (registry_literal fake);
  Ok (list_to_map gs).

Definition DEFAULT_SCHEMA : list string :=
  ["nome"; "email"; "cpf"; "telefone"; "endereco"; "cidade"; "estado"; "cep";
   "empresa"; "cargo"; "data"].

(** ** build_row *)

(** The body of the loop up to the assignment: the value for the trimmed
    name [f]. *)
Definition resolve (generators : gmap string gen) (fake : Faker) (f : string)
  : gen :=
  match generators !! f with
  | None =>
      match getattr fake f with
      | Some m => m []
      | None => fun _ st => Ok (VNone, st)
      end
  | Some g => g
  end.

Fixpoint build_row_loop (generators : gmap string gen) (fake : Faker)
    (schema : list string) (row : dict) (now : Z) (st : St)
  : result (dict * St) :=
  match schema with
  | [] => Ok (row, st)
  | field :: rest =>
      let f := strip field in
      match resolve generators fake f now st with
      | Ok (val, st') =>
          build_row_loop generators fake rest (dict_set f val row) now st'
      | Raise e => Raise e
      end
  end.

Definition build_row (fake : Faker) (schema : list string) (now : Z) (st : St)
  : result (dict * St) :=
  match get_field_generators fake with
  | Ok generators => build_row_loop generators fake schema [] now st
  | Raise e => Raise e
  end.

(** ** The dataset: [[build_row(fake, schema) for _ in range(rows)]] *)

Fixpoint build_rows (fake : Faker) (schema : list string) (n : nat)
    (now : Z) (st : St) : result (list dict * St) :=
  match n with
  | O => Ok ([], st)
  | S n' =>
      match build_row fake schema now st with
      | Ok (row, st') =>
          match build_rows fake schema n' now st' with
          | Ok (rows, st'') => Ok (row :: rows, st'')
          | Raise e => Raise e
          end
      | Raise e => Raise e
      end
  end.

(** [range(count)] is empty for a negative [count]. *)
Definition build_dataset (fake : Faker) (schema : list string) (count : Z)
    (now : Z) (st : St) : result (list dict * St) :=
  build_rows fake schema (Z.to_nat count) now st.

End Program.

Arguments Faker : clear implicits.
Arguments gen : clear implicits.
Arguments callable : clear implicits.

(** ** csv.DictWriter over a csv.writer in the excel dialect

    delimiter [,], quotechar [dquote], doublequote, lineterminator CR LF,
    QUOTE_MINIMAL, no escapechar. *)

Definition dquote : ascii := "034"%char.
Definition CR : ascii := "013"%char.
Definition LF : ascii := "010"%char.
Definition comma : ascii := ","%char.
Definition lineterminator : string := String CR (String LF EmptyString).

(** [str(v)]. *)
Definition py_str (v : value) : string :=
  match v with
  | VNone => "None"
  | VStr s => s
  | VFloat x => float_repr x
  | VObj o => obj_str o
  end.

(** The text of a field before quoting: [None] is the empty text, a [str]
    is itself, anything else goes through [str()]. *)
Definition field_text (v : value) : string :=
  match v with
  | VNone => EmptyString
  | _ => py_str v
  end.

Definition special (c : ascii) : bool :=
  bool_decide (c = comma ∨ c = dquote ∨ c = CR ∨ c = LF).

Fixpoint needs_quote (s : string) : bool :=
  match s with
  | EmptyString => false
  | String c s' => special c || needs_quote s'
  end.

Fixpoint double_quotes (s : string) : string :=
  match s with
  | EmptyString => EmptyString
  | String c s' =>
      if decide (c = dquote) then String c (String c (double_quotes s'))
      else String c (double_quotes s')
  end.

Definition quoted (s : string) : string :=
  String dquote (double_quotes s +:+ String dquote EmptyString).

(** One field as [join_append] leaves it in the record buffer. *)
Definition join_append (v : value) : string :=
  let s := field_text v in
  if needs_quote s then quoted s else s.

(** [writer.writerow]: a record of one empty field is written quoted. *)
Definition writerow (fields : list value) : string :=
  let rec := String.concat (String comma EmptyString) (map join_append fields) in
  (match fields, rec with
   | _ :: _, EmptyString => quoted EmptyString
   | _, _ => rec
   end) +:+ lineterminator.

(** [dict(pairs)]. *)
Definition dict_of_pairs (l : list (string * value)) : dict :=
  foldl (fun d kv => dict_set kv.1 kv.2 d) [] l.

(** [(rowdict.get(key, restval) for key in fieldnames)], [restval] being
    the empty string. *)
Definition row_values (fieldnames : list string) (rowdict : dict) : list value :=
  map (fun key => default (VStr EmptyString) (dict_get key rowdict)) fieldnames.

(** [DictWriter._dict_to_list] with [extrasaction="raise"]. *)
Definition dict_to_list (fieldnames : list string) (rowdict : dict)
  : result (list value) :=
  if forallb (fun k => bool_decide (k ∈ fieldnames)) (keys rowdict)
  then Ok (row_values fieldnames rowdict)
  else Raise ValueError.

Definition writeheader (fieldnames : list string) : result string :=
  row ← dict_to_list fieldnames
          (dict_of_pairs (zip fieldnames (VStr <$> fieldnames)));
  Ok (writerow row).

Definition writerows (fieldnames : list string) (rowdicts : list dict)
  : result string :=
  lines ← mapM (fun d => writerow <$> dict_to_list fieldnames d) rowdicts;
  Ok (String.concat EmptyString lines).

(** The csv branch of [main]. *)
Definition write_csv (schema : list string) (rows : list dict)
  : result string :=
  header ← writeheader schema;
  body ← writerows schema rows;
  Ok (header +:+ body).

(** ** json.dump(rows, f, ensure_ascii=False, indent=2) *)

Definition hex_digit (n : N) : ascii :=
  ascii_of_N (if (n <? 10)%N then 48 + n else 87 + n)%N.

(** [ESCAPE_DCT]: the characters [py_encode_basestring] replaces. *)
Definition escape (c : ascii) : string :=
  let n := N_of_ascii c in
  if decide (c = dquote) then String "\" (String dquote EmptyString)
  else if decide (c = "\"%char) then "\\"
  else if (n =? 10)%N then "\n"
  else if (n =? 13)%N then "\r"
  else if (n =? 9)%N then "\t"
  else if (n =? 8)%N then "\b"
  else if (n =? 12)%N then "\f"
  else if (n <? 32)%N
       then "\u00" +:+ String (hex_digit (n / 16)) (String (hex_digit (n mod 16)) EmptyString)
  else String c EmptyString.

Fixpoint escape_all (s : string) : string :=
  match s with
  | EmptyString => EmptyString
  | String c s' => escape c +:+ escape_all s'
  end.

Definition py_encode_basestring (s : string) : string :=
  String dquote (escape_all s +:+ String dquote EmptyString).

Definition floatstr (x : pyfloat) : string :=
  let r := float_repr x in
  if decide (r = "nan") then "NaN"
  else if decide (r = "inf") then "Infinity"
  else if decide (r = "-inf") then "-Infinity"
  else r.

Definition json_value (v : value) : result string :=
  match v with
  | VNone => Ok "null"
  | VStr s => Ok (py_encode_basestring s)
  | VFloat x => Ok (floatstr x)
  | VObj o =>
      match obj_json o with
      | Some t => Ok t
      | None => Raise TypeError
      end
  end.

(** A newline and [indent * level] spaces. *)
Definition newline_indent (level : nat) : string :=
  String LF (String.concat EmptyString (replicate level "  ")).

Definition json_item (kv : string * value) : result string :=
  t ← json_value kv.2;
  Ok (py_encode_basestring kv.1 +:+ ": " +:+ t).

(** A list or dict at nesting depth [level], given the texts of its
    items: empty, or one item per line. *)
Definition json_container (opening closing : string) (level : nat)
    (items : list string) : string :=
  match items with
  | [] => opening +:+ closing
  | _ =>
      opening +:+ newline_indent (S level)
      +:+ String.concat ("," +:+ newline_indent (S level)) items
      +:+ newline_indent level +:+ closing
  end.

(** An object one level inside the array. *)
Definition json_dict (d : dict) : result string :=
  items ← mapM json_item d;
  Ok (json_container "{" "}" 1 items).

Definition json_dump (rows : list dict) : result string :=
  objs ← mapM json_dict rows;
  Ok (json_container "[" "]" 0 objs).

(** ** main *)

Inductive format := csv | json.

Record Args := {
  args_rows : Z;
  args_locale : string;
  args_format : format;
  args_schema : string;
  args_output : option string;
  args_seed : option Z
}.

(** The destination: the path given, or the default name made of the locale,
    the clock reading and the format. *)
Inductive path :=
| Given (p : string)
| Auto (locale : string) (stamp : Z) (fmt : format).

(** What a run leaves behind: the file and the three facts of the summary. *)
Record Run := {
  run_path : path;
  run_text : string;
  run_fields : list string;
  run_lines : nat
}.

(** The defaults argparse fills in. *)
Definition default_args : Args :=
  {| args_rows := 100; args_locale := "pt_BR"; args_format := csv;
     args_schema := String.concat "," DEFAULT_SCHEMA;
     args_output := None; args_seed := None |}.

(** [[s.strip() for s in text.split(",") if s.strip()]]. *)
Definition parse_schema (text : string) : list string :=
  filter (fun s => s ≠ EmptyString) (strip <$> split comma text).

(** [args.output] once the default name is filled in, at clock reading
    [now]. *)
Definition destination (args : Args) (now : Z) : path :=
  match args_output args with
  | Some p => Given p
  | None => Auto (args_locale args) now (args_format args)
  end.

(** The two branches on [args.format]. *)
Definition serialise (fmt : format) (schema : list string) (rows : list dict)
  : result string :=
  match fmt with
  | csv => write_csv schema rows
  | json => json_dump rows
  end.

Section Main.
Context {St : Type}.

(** The Faker class: the constructor for a locale, which can refuse it, and
    the generator state [Faker.seed] installs. *)
Record Library := {
  Faker_new : string → result (Faker St);
  Faker_seed : Z → St
}.

(** What differs between two runs of the same command line: the clock, the
    state an unseeded generator starts in, and the file system, which lets
    a path be opened for writing or not and lets a text be written to it
    or not. *)
Record Env := {
  clock : Z;
  entropy : St;
  can_open : path → bool;
  can_write : path → string → bool
}.

(** [open(path, "w", ...)]. *)
Definition open_w (env : Env) (p : path) : result unit :=
  if can_open env p then Ok tt else Raise OSError.

(** What the writers send to the open file reaching it, the file closed. *)
Definition write_all (env : Env) (p : path) (text : string) : result unit :=
  if can_write env p text then Ok tt else Raise OSError.

Definition main (lib : Library) (args : Args) (env : Env) : result Run :=
  fake ← Faker_new lib (args_locale args);
  let st :=
    match args_seed args with
    | Some s => Faker_seed lib s
    | None => entropy env
    end in
  let schema := parse_schema (args_schema args) in
  '(rows, _) ← build_dataset fake schema (args_rows args) (clock env) st;
  let output := destination args (clock env) in
  _ ← open_w env output;
  text ← serialise (args_format args) schema rows;
  _ ← write_all env output text;
  Ok {| run_path := output; run_text := text;
        run_fields := schema; run_lines := length rows |}.

End Main.

Arguments Library : clear implicits.
Arguments Env : clear implicits.

(** ** csv.reader in the excel dialect, over a file opened without newline
    translation

    The reader is what the round-trip property parses the output with.  It
    consumes the file line by line (a line ends after LF, after CR LF, after
    a CR that no LF follows, and at the end of the file), feeds its state
    machine every character of the line and then the end-of-line mark, and
    returns the record once the machine is back in [START_RECORD]. *)

Inductive rstate :=
| START_RECORD
| START_FIELD
| IN_FIELD
| IN_QUOTED_FIELD
| QUOTE_IN_QUOTED_FIELD
| EAT_CRNL.

Global Instance rstate_eq_dec : EqDecision rstate.
Proof. solve_decision. Defined.

Record reader := Reader {
  state : rstate;
  fields : list string;
  field : string
}.

Definition parse_reset : reader := Reader START_RECORD [] EmptyString.

Definition parse_add_char (r : reader) (c : ascii) : reader :=
  Reader (state r) (fields r) (field r +:+ String c EmptyString).

Definition parse_save_field (r : reader) : reader :=
  Reader (state r) (fields r ++ [field r]) EmptyString.

Definition set_state (s : rstate) (r : reader) : reader :=
  Reader s (fields r) (field r).

Definition is_newline (c : ascii) : bool := bool_decide (c = LF ∨ c = CR).

(** An ordinary character at the start of a field or after one. *)
Definition start_field (r : reader) (c : ascii) : reader :=
  if is_newline c then set_state EAT_CRNL (parse_save_field r)
  else if decide (c = dquote) then set_state IN_QUOTED_FIELD r
  else if decide (c = comma) then parse_save_field r
  else set_state IN_FIELD (parse_add_char r c).

(** [parse_process_char] on a character. *)
Definition process_char (r : reader) (c : ascii) : result reader :=
  match state r with
  | START_RECORD =>
      if is_newline c then Ok (set_state EAT_CRNL r)
      else Ok (start_field (set_state START_FIELD r) c)
  | START_FIELD => Ok (start_field r c)
  | IN_FIELD =>
      if is_newline c then Ok (set_state EAT_CRNL (parse_save_field r))
      else if decide (c = comma) then Ok (set_state START_FIELD (parse_save_field r))
      else Ok (parse_add_char r c)
  | IN_QUOTED_FIELD =>
      if decide (c = dquote) then Ok (set_state QUOTE_IN_QUOTED_FIELD r)
      else Ok (parse_add_char r c)
  | QUOTE_IN_QUOTED_FIELD =>
      if decide (c = dquote) then Ok (set_state IN_QUOTED_FIELD (parse_add_char r c))
      else if decide (c = comma) then Ok (set_state START_FIELD (parse_save_field r))
      else if is_newline c then Ok (set_state EAT_CRNL (parse_save_field r))
      else Ok (set_state IN_FIELD (parse_add_char r c))
  | EAT_CRNL =>
      if is_newline c then Ok r else Raise CsvError
  end.

(** [parse_process_char] on the end-of-line mark. *)
Definition process_eol (r : reader) : reader :=
  match state r with
  | START_RECORD => r
  | START_FIELD | IN_FIELD | QUOTE_IN_QUOTED_FIELD =>
      set_state START_RECORD (parse_save_field r)
  | IN_QUOTED_FIELD => r
  | EAT_CRNL => set_state START_RECORD r
  end.

(** The reader has a whole field when it meets the delimiter or the end of
    the record in one of these states. *)
Definition field_done (r : reader) : Prop :=
  state r = START_FIELD ∨ state r = IN_FIELD ∨ state r = QUOTE_IN_QUOTED_FIELD.

(** Does the line end after [c], given what follows it in the file? *)
Definition ends_line (c : ascii) (rest : string) : bool :=
  match rest with
  | EmptyString => true
  | String d _ => bool_decide (c = LF) || (bool_decide (c = CR) && negb (bool_decide (d = LF)))
  end.

(** All the records of a file, starting with the machine in state [r]. *)
Fixpoint read_records (r : reader) (text : string) : result (list (list string)) :=
  match text with
  | EmptyString =>
      (* the input is exhausted: a record cut short inside a quoted field
         is returned as it stands *)
      if bool_decide (field r ≠ EmptyString ∨ state r = IN_QUOTED_FIELD)
      then Ok [fields (parse_save_field r)] else Ok []
  | String c rest =>
      match process_char r c with
      | Raise e => Raise e
      | Ok r1 =>
          if ends_line c rest then
            let r2 := process_eol r1 in
            if decide (state r2 = START_RECORD) then
              match read_records parse_reset rest with
              | Ok rows => Ok (fields r2 :: rows)
              | Raise e => Raise e
              end
            else read_records r2 rest
          else read_records r1 rest
      end
  end.

Definition csv_reader (text : string) : result (list (list string)) :=
  read_records parse_reset text.



(** ** The trace of a row: one resolution per schema entry, in order *)

Section Trace.
Context {St : Type}.

Fixpoint resolve_each (generators : gmap string (gen St)) (fake : Faker St)
    (schema : list string) (now : Z) (st : St)
  : result (list (string * value) * St) :=
  match schema with
  | [] => Ok ([], st)
  | field :: rest =>
      match resolve generators fake (strip field) now st with
      | Ok (val, st') =>
          match resolve_each generators fake rest now st' with
          | Ok (tr, st'') => Ok ((strip field, val) :: tr, st'')
          | Raise e => Raise e
          end
      | Raise e => Raise e
      end
  end.

(** The row builder as the specification words it: registry first, then a
    provider capability of the same name, then null. *)
Definition spec_resolve (registry : gmap string (gen St)) (fake : Faker St)
    (f : string) : gen St :=
  fun now st =>
    match registry !! f with
    | Some generator => generator now st
    | None =>
        if hasattr fake f then call fake f [] now st
        else Ok (VNone, st)
    end.

Fixpoint spec_build_row (registry : gmap string (gen St)) (fake : Faker St)
    (schema : list string) (record : dict) (now : Z) (st : St)
  : result (dict * St) :=
  match schema with
  | [] => Ok (record, st)
  | name :: rest =>
      '(v, st') ← spec_resolve registry fake (strip name) now st;
      spec_build_row registry fake rest (dict_set (strip name) v record) now st'
  end.

(** The attributes the dict literal reads while it is built. *)
Definition eager_attrs : list string :=
  ["name"; "first_name"; "last_name"; "email"; "user_name"; "password";
   "uuid4"; "street_address"; "city"; "state"; "postcode"; "country";
   "company"; "job"; "url"; "domain_name"; "ipv4"; "currency_code";
   "credit_card_number"; "sentence"].

(** The keys of the dict literal. *)
Definition canonical_names : list string :=
  ["nome"; "primeiro_nome"; "sobrenome"; "email"; "usuario"; "senha";
   "data_nascimento"; "cpf"; "cnpj"; "rg"; "telefone"; "celular"; "uuid";
   "endereco"; "bairro"; "cidade"; "estado"; "cep"; "pais"; "empresa";
   "cargo"; "cnpj_empresa"; "url"; "dominio"; "ip"; "preco"; "moeda";
   "cartao_credito"; "data"; "hora"; "timestamp"; "frase"; "texto"].


End Trace.

(** The values [json.dump] has a text for. *)
Definition json_serialisable (v : value) : bool := is_ok (json_value v).


Definition with_rows (n : Z) (a : Args) : Args :=
  {| args_rows := n; args_locale := args_locale a;
     args_format := args_format a; args_schema := args_schema a;
     args_output := args_output a; args_seed := args_seed a |}.

(** ** Small providers to evaluate the program on

    Stand-ins over a counter state: every capability returns a text naming
    itself, except the numeric and the date ones. *)

Definition sample_date (iso : string) : value :=
  VObj (PyObject iso (Some iso) None (Raise ValueError)).

Definition sample_call (name : string) : callable nat :=
  fun kw now st =>
    if decide (name = "pyfloat") then Ok (VFloat (PyFloat "12.34" "12.34"), S st)
    else if decide (name = "date_of_birth") then Ok (sample_date "1990-01-01", S st)
    else if decide (name = "date_time_between")
         then Ok (sample_date (if now <? 1000 then "1969-12-31T23:59:59"
                               else "1970-01-01T00:16:40"), S st)
    else Ok (VStr name, S st).

Definition sample_faker (attrs : list string) : Faker nat :=
  {| getattr name :=
       if decide (name ∈ attrs) then Some (sample_call name) else None |}.

Definition common_attrs : list string :=
  ["name"; "first_name"; "last_name"; "email"; "user_name"; "password";
   "date_of_birth"; "phone_number"; "uuid4"; "street_address";
   "secondary_address"; "city"; "state"; "postcode"; "country"; "company";
   "job"; "url"; "domain_name"; "ipv4"; "pyfloat"; "currency_code";
   "credit_card_number"; "date"; "time"; "date_time_between"; "sentence";
   "text"].

(** With the Brazilian capabilities, and without them. *)
Definition sample_pt_BR : Faker nat :=
  sample_faker (["cpf"; "cnpj"; "rg"; "bairro"; "cellphone_number"] ++ common_attrs).
Definition sample_en_US : Faker nat := sample_faker common_attrs.
(** A locale whose address provider has no [state]. *)
Definition sample_no_state : Faker nat :=
  sample_faker (filter (fun a => a ≠ "state") common_attrs).

(** The registry built against [sample_en_US]. *)
Definition sample_en_generators : gmap string (gen nat) :=
  match get_field_generators sample_en_US with
  | Ok generators => generators
  | Raise _ => ∅
  end.

Definition sample_library : Library nat :=
  {| Faker_new locale :=
       if decide (locale = "pt_BR") then Ok sample_pt_BR
       else if decide (locale = "en_US") then Ok sample_en_US
       else Raise (AttributeError "Invalid configuration for faker locale");
     Faker_seed s := Z.to_nat s |}.

Definition sample_args (fmt : format) (schema : string) (n : Z) : Args :=
  {| args_rows := n; args_locale := "en_US"; args_format := fmt;
     args_schema := schema; args_output := Some "out"; args_seed := Some 42 |}.


(** A run at clock reading [t] from unseeded state [e], every path writable,
    and the same with no path that can be opened. *)
Definition sample_env (t : Z) (e : nat) : Env nat :=
  {| clock := t; entropy := e;
     can_open := fun _ => true; can_write := fun _ _ => true |}.

Definition sample_env_read_only (t : Z) (e : nat) : Env nat :=
  {| clock := t; entropy := e;
     can_open := fun _ => false; can_write := fun _ _ => true |}.

(** * Properties *)

(** ** Strings *)

Lemma append_nil_r (s : string) : s +:+ EmptyString = s.
Proof. induction s as [|c s IH]; [done | by rewrite <- IH at 2]. Qed.

Lemma append_assoc (s t u : string) : (s +:+ t) +:+ u = s +:+ (t +:+ u).
Proof.
  induction s as [|c s IH]; [done |].
  change (String c ((s +:+ t) +:+ u) = String c (s +:+ (t +:+ u))).
  by rewrite IH.
Qed.

Lemma append_cons (c : ascii) (s t : string) :
  String c s +:+ t = String c (s +:+ t).
Proof. done. Qed.

Lemma concat_empty_cons (x : string) (xs : list string) :
  String.concat EmptyString (x :: xs) = x +:+ String.concat EmptyString xs.
Proof. destruct xs; simpl; [by rewrite append_nil_r | done]. Qed.

Lemma lstrip_idemp (s : string) : lstrip (lstrip s) = lstrip s.
Proof.
  induction s as [|c s IH]; [done |].
  simpl. destruct (isspace c) eqn:Hc; [done |].
  simpl. by rewrite Hc.
Qed.

Lemma rstrip_idemp (s : string) : rstrip (rstrip s) = rstrip s.
Proof.
  induction s as [|c s IH]; [done |].
  simpl. destruct (rstrip s) as [|d r] eqn:Hr.
  - destruct (isspace c) eqn:Hc; [done |]. simpl. by rewrite Hc.
  - simpl in *. by rewrite IH.
Qed.

(** Trimming on the left keeps a string without trailing whitespace so. *)
Lemma rstrip_lstrip_fixed (s : string) :
  rstrip s = s → rstrip (lstrip s) = lstrip s.
Proof.
  induction s as [|c s IH]; [done |].
  intros Hs. simpl. destruct (isspace c) eqn:Hc; [| done].
  apply IH. simpl in Hs. destruct (rstrip s) as [|d r] eqn:Hr.
  - rewrite Hc in Hs. discriminate.
  - by injection Hs.
Qed.

Lemma strip_idemp (s : string) : strip (strip s) = strip s.
Proof.
  unfold strip.
  rewrite (rstrip_lstrip_fixed (rstrip s)) by apply rstrip_idemp.
  apply lstrip_idemp.
Qed.

(** Trimming takes whitespace off the two ends and nothing else. *)
Lemma lstrip_split (s : string) :
  ∃ lead, s = lead +:+ lstrip s ∧ all_space lead = true
          ∧ starts_with_space (lstrip s) = false.
Proof.
  induction s as [|c s (lead & Hs & Hlead & Hstart)].
  - by exists EmptyString.
  - cbn [lstrip]. destruct (isspace c) eqn:Hc.
    + exists (String c lead). rewrite append_cons, <- Hs.
      split_and!; [done | | done]. cbn [all_space]. by rewrite Hc, Hlead.
    + exists EmptyString. by split_and!.
Qed.

Lemma rstrip_split (s : string) :
  ∃ trail, s = rstrip s +:+ trail ∧ all_space trail = true
           ∧ ends_with_space (rstrip s) = false.
Proof.
  induction s as [|c s (trail & Hs & Htrail & Hend)].
  - by exists EmptyString.
  - cbn [rstrip]. destruct (rstrip s) as [|d r] eqn:Hr.
    + change (EmptyString +:+ trail) with trail in Hs. subst trail.
      destruct (isspace c) eqn:Hc.
      * exists (String c s). split_and!; [done | | done].
        cbn [all_space]. by rewrite Hc, Htrail.
      * exists s. split_and!; [done | done |]. cbn. by rewrite Hc.
    + exists trail. rewrite append_cons, <- Hs. by split_and!.
Qed.

Lemma ends_with_space_lstrip (s : string) :
  ends_with_space s = false → ends_with_space (lstrip s) = false.
Proof.
  induction s as [|c s IH]; [done |].
  cbn [lstrip]. intros H. destruct (isspace c) eqn:Hc; [| done].
  apply IH. cbn [ends_with_space] in H. destruct s; [congruence | done].
Qed.

Lemma strip_split (s : string) :
  ∃ lead trail,
    s = lead +:+ strip s +:+ trail
    ∧ all_space lead = true ∧ all_space trail = true
    ∧ starts_with_space (strip s) = false ∧ ends_with_space (strip s) = false.
Proof.
  destruct (rstrip_split s) as (trail & Hs & Htrail & Hend).
  destruct (lstrip_split (rstrip s)) as (lead & Hr & Hlead & Hstart).
  exists lead, trail. unfold strip. split_and!; [| done | done | done |].
  - by rewrite <- append_assoc, <- Hr.
  - by apply ends_with_space_lstrip.
Qed.

(** ** Dicts *)

Lemma dict_get_set_eq (k : string) (v : value) (d : dict) :
  dict_get k (dict_set k v d) = Some v.
Proof.
  induction d as [|[k' v'] d IH]; simpl.
  - by rewrite decide_True.
  - destruct (decide (k' = k)) as [->|Hne]; simpl.
    + by rewrite decide_True.
    + by rewrite decide_False.
Qed.

Lemma dict_get_set_ne (k k0 : string) (v : value) (d : dict) :
  k0 ≠ k → dict_get k0 (dict_set k v d) = dict_get k0 d.
Proof.
  intros Hne. induction d as [|[k' v'] d IH]; simpl.
  - by rewrite decide_False.
  - destruct (decide (k' = k)) as [->|Hk]; simpl.
    + by rewrite !decide_False.
    + destruct (decide (k' = k0)); [done | apply IH].
Qed.

Lemma keys_cons (k : string) (v : value) (d : dict) :
  keys ((k, v) :: d) = k :: keys d.
Proof. done. Qed.

Lemma keys_dict_set (k : string) (v : value) (d : dict) :
  keys (dict_set k v d) = if decide (k ∈ keys d) then keys d else keys d ++ [k].
Proof.
  induction d as [|[k' v'] d IH].
  - cbn [dict_set]. rewrite keys_cons. change (keys []) with (@nil string).
    destruct (decide (k ∈ [])) as [H|H]; [by apply elem_of_nil in H | done].
  - cbn [dict_set]. destruct (decide (k' = k)) as [->|Hne]; rewrite !keys_cons.
    + rewrite decide_True; [done | apply list_elem_of_here].
    + rewrite IH. destruct (decide (k ∈ keys d)) as [Hin|Hin].
      * rewrite decide_True; [done | by apply list_elem_of_further].
      * rewrite decide_False; [done |].
        intros [->|?]%elem_of_cons; [done | by apply Hin].
Qed.


Lemma first_occurrences_ext (s1 s2 ks : list string) :
  (∀ x, x ∈ s1 ↔ x ∈ s2) →
  first_occurrences s1 ks = first_occurrences s2 ks.
Proof.
  revert s1 s2. induction ks as [|k ks IH]; intros s1 s2 Heq; simpl; [done |].
  destruct (decide (k ∈ s1)) as [H1|H1].
  - rewrite decide_True by (by apply Heq). by apply IH.
  - rewrite decide_False by (by rewrite <- Heq). f_equal. apply IH.
    intros x. rewrite !elem_of_cons. by rewrite Heq.
Qed.

Lemma first_occurrences_spec (seen ks : list string) :
  NoDup (first_occurrences seen ks) ∧
  ∀ x, x ∈ first_occurrences seen ks ↔ x ∈ ks ∧ x ∉ seen.
Proof.
  revert seen. induction ks as [|k ks IH]; intros seen; simpl.
  - split; [constructor |]. intros x. rewrite elem_of_nil. tauto.
  - destruct (decide (k ∈ seen)) as [Hin|Hin].
    + destruct (IH seen) as [Hnd Hel]. split; [done |].
      intros x. rewrite Hel, elem_of_cons. intuition congruence.
    + destruct (IH (k :: seen)) as [Hnd Hel]. split.
      * constructor; [| done]. rewrite Hel, elem_of_cons. tauto.
      * intros x. rewrite !elem_of_cons, Hel, not_elem_of_cons.
        destruct (decide (x = k)); intuition congruence.
Qed.

(** Assigning a trace to a dict, entry by entry. *)
Lemma keys_assign (tr : list (string * value)) (d : dict) :
  keys (foldl (fun d kv => dict_set kv.1 kv.2 d) d tr)
  = keys d ++ first_occurrences (keys d) tr.*1.
Proof.
  revert d. induction tr as [|[k v] tr IH]; intros d; simpl.
  - by rewrite app_nil_r.
  - rewrite IH, keys_dict_set.
    destruct (decide (k ∈ keys d)) as [Hin|Hin]; [done |].
    rewrite <- app_assoc. simpl. do 2 f_equal.
    apply first_occurrences_ext. intros x.
    rewrite elem_of_app, !elem_of_cons, elem_of_nil. tauto.
Qed.

Lemma dict_get_app (k : string) (l1 l2 : dict) :
  dict_get k (l1 ++ l2)
  = match dict_get k l1 with Some v => Some v | None => dict_get k l2 end.
Proof.
  induction l1 as [|[a b] l1 IHl]; simpl; [done |].
  by destruct (decide (a = k)).
Qed.

Lemma dict_get_assign (k : string) (tr : list (string * value)) (d : dict) :
  dict_get k (foldl (fun d kv => dict_set kv.1 kv.2 d) d tr)
  = match dict_get k (reverse tr) with
    | Some v => Some v
    | None => dict_get k d
    end.
Proof.
  revert d. induction tr as [|[k' v'] tr IH]; intros d; simpl; [done |].
  rewrite IH, reverse_cons, dict_get_app.
  destruct (dict_get k (reverse tr)); [done |]. simpl.
  destruct (decide (k' = k)) as [->|Hne].
  - apply dict_get_set_eq.
  - by apply dict_get_set_ne.
Qed.

(** ** The registry *)

Section Registry.
Context {St : Type}.
Implicit Types (fake : Faker St) (generators : gmap string (gen St)).

Lemma is_ok_eval_binding fake (b : binding) :
  is_ok (eval_binding fake b)
  = match b with Bound a => hasattr fake a | _ => true end.
Proof. destruct b as [a|a d|g]; simpl; [| done..]. unfold hasattr. by destruct (getattr fake a). Qed.

Lemma is_ok_eval_literal fake (l : list (string * binding)) :
  is_ok (eval_literal fake l)
  = forallb (fun kb => match kb.2 with Bound a => hasattr fake a | _ => true end) l.
Proof.
  induction l as [|[k b] l IH]; [done |].
  cbn [eval_literal forallb snd]. rewrite <- IH, <- is_ok_eval_binding.
  destruct (eval_binding fake b); [| done]. simpl.
  by destruct (eval_literal fake l).
Qed.

(** Entry by entry, the evaluated literal keeps the key and holds the
    evaluated value. *)
Lemma eval_literal_Forall2 fake (l : list (string * binding)) gs :
  eval_literal fake l = Ok gs →
  Forall2 (fun kb kg => kb.1 = kg.1 ∧ eval_binding fake kb.2 = Ok kg.2) l gs.
Proof.
  revert gs. induction l as [|[k b] l IH]; intros gs H.
  - injection H as <-. constructor.
  - cbn [eval_literal] in H.
    destruct (eval_binding fake b) as [g|] eqn:Hb; [| discriminate].
    simpl in H. destruct (eval_literal fake l) as [gs'|]; [| discriminate].
    injection H as <-. constructor; [done | by apply IH].
Qed.

Lemma eval_literal_keys fake (l : list (string * binding)) gs :
  eval_literal fake l = Ok gs → gs.*1 = l.*1.
Proof.
  intros H%eval_literal_Forall2.
  induction H as [|[k b] [k' g] l gs [Hk _] _ IH]; [done |].
  rewrite !fmap_cons. f_equal; [symmetry; apply Hk | apply IH].
Qed.

Lemma eval_literal_lookup fake (l : list (string * binding)) gs i k b :
  eval_literal fake l = Ok gs → NoDup l.*1 → l !! i = Some (k, b) →
  ∃ g, eval_binding fake b = Ok g ∧ (list_to_map gs : gmap string (gen St)) !! k = Some g.
Proof.
  intros Hev Hnd Hi.
  pose proof (eval_literal_keys _ _ _ Hev) as Hkeys.
  apply eval_literal_Forall2 in Hev.
  destruct (Forall2_lookup_l _ _ _ _ _ Hev Hi) as ([k' g] & Hg & Hk & Hb).
  simpl in *. subst k'. exists g. split; [done |].
  apply elem_of_list_to_map_1.
  - by rewrite Hkeys.
  - by eapply list_elem_of_lookup_2.
Qed.

Lemma registry_literal_keys fake : (registry_literal fake).*1 = canonical_names.
Proof. reflexivity. Qed.

Lemma canonical_names_NoDup : NoDup canonical_names.
Proof. apply (bool_decide_unpack (NoDup canonical_names)). by vm_compute. Qed.

(** The mapping has the canonical names and no other, whatever the
    provider. *)
Lemma registry_keys fake generators (k : string) :
  get_field_generators fake = Ok generators →
  generators !! k = None ↔ k ∉ canonical_names.
Proof.
  unfold get_field_generators. intros H.
  destruct (eval_literal fake (registry_literal fake)) as [gs|] eqn:Hev;
    [| discriminate].
  injection H as <-.
  rewrite <- (registry_literal_keys fake), <- (eval_literal_keys _ _ _ Hev).
  symmetry. apply not_elem_of_list_to_map.
Qed.

Lemma registry_lookup fake generators i k b :
  get_field_generators fake = Ok generators →
  registry_literal fake !! i = Some (k, b) →
  ∃ g, eval_binding fake b = Ok g ∧ generators !! k = Some g.
Proof.
  unfold get_field_generators. intros H Hi.
  destruct (eval_literal fake (registry_literal fake)) as [gs|] eqn:Hev;
    [| discriminate].
  injection H as <-.
  eapply eval_literal_lookup; [done | | done].
  rewrite registry_literal_keys. apply canonical_names_NoDup.
Qed.

Lemma registry_built_iff fake :
  is_ok (get_field_generators fake) = forallb (hasattr fake) eager_attrs.
Proof.
  unfold get_field_generators.
  transitivity (is_ok (eval_literal fake (registry_literal fake))).
  { by destruct (eval_literal fake (registry_literal fake)). }
  rewrite is_ok_eval_literal. reflexivity.
Qed.

End Registry.

(** ** The row builder *)

Section Row.
Context {St : Type}.
Implicit Types (fake : Faker St) (generators : gmap string (gen St)).

Lemma resolve_spec_resolve fake generators (f : string) now st :
  resolve generators fake f now st = spec_resolve generators fake f now st.
Proof.
  unfold resolve, spec_resolve, hasattr, call.
  destruct (generators !! f); [done |]. by destruct (getattr fake f).
Qed.

Lemma build_row_loop_spec fake generators schema row now st :
  build_row_loop generators fake schema row now st
  = spec_build_row generators fake schema row now st.
Proof.
  revert row st. induction schema as [|field rest IH]; intros row st; [done |].
  cbn [build_row_loop spec_build_row]. rewrite resolve_spec_resolve.
  destruct (spec_resolve generators fake (strip field) now st) as [[v st']|e];
    [apply IH | done].
Qed.

(** C2.  With the registry built, the row builder treats a field name as
    the specification says.  The name it uses is the field without the
    whitespace at its two ends.  The value is the result of the registry's
    generator for that name if there is one, else of the provider capability
    of that name called without arguments, else null.  If that raises, the
    row raises; otherwise the value is stored under the trimmed name (a new
    key going last, a present key keeping its place, the other keys
    untouched) and the loop goes on with the next field.  The whole row is
    the loop of the specification run from the empty record. *)
Theorem row_builder_algorithm fake generators (field : string)
    (rest : list string) (row : dict) now st :
  get_field_generators fake = Ok generators →
  (∃ lead trail,
     field = lead +:+ strip field +:+ trail
     ∧ all_space lead = true ∧ all_space trail = true
     ∧ starts_with_space (strip field) = false
     ∧ ends_with_space (strip field) = false)
  ∧ match
      match generators !! strip field with
      | Some generator => generator now st
      | None =>
          match getattr fake (strip field) with
          | Some capability => capability [] now st
          | None => Ok (VNone, st)
          end
      end
    with
    | Ok (v, st') =>
        ∃ row',
          dict_get (strip field) row' = Some v
          ∧ (∀ k, k ≠ strip field → dict_get k row' = dict_get k row)
          ∧ keys row'
            = (if decide (strip field ∈ keys row) then keys row
               else keys row ++ [strip field])
          ∧ build_row_loop generators fake (field :: rest) row now st
            = build_row_loop generators fake rest row' now st'
    | Raise e =>
        build_row_loop generators fake (field :: rest) row now st = Raise e
    end
  ∧ ∀ schema,
      build_row fake schema now st
      = build_row_loop generators fake schema [] now st
      ∧ build_row fake schema now st
        = spec_build_row generators fake schema [] now st.
Proof.
  intros Hreg. split_and!.
  - apply strip_split.
  - assert (Hstep : ∀ v st',
              ∃ row',
                dict_get (strip field) row' = Some v
                ∧ (∀ k, k ≠ strip field → dict_get k row' = dict_get k row)
                ∧ keys row'
                  = (if decide (strip field ∈ keys row) then keys row
                     else keys row ++ [strip field])
                ∧ build_row_loop generators fake rest
                    (dict_set (strip field) v row) now st'
                  = build_row_loop generators fake rest row' now st').
    { intros v st'. exists (dict_set (strip field) v row). split_and!.
      - apply dict_get_set_eq.
      - intros k Hk. by apply dict_get_set_ne.
      - apply keys_dict_set.
      - done. }
    cbn [build_row_loop]. unfold resolve.
    destruct (generators !! strip field) as [g|].
    + destruct (g now st) as [[v st']|e]; [apply Hstep | done].
    + destruct (getattr fake (strip field)) as [m|].
      * destruct (m [] now st) as [[v st']|e]; [apply Hstep | done].
      * apply Hstep.
  - intros schema. unfold build_row. rewrite Hreg.
    split; [done | apply build_row_loop_spec].
Qed.

(** The loop assigns its trace to the row it starts from. *)
Lemma build_row_loop_trace fake generators schema row now st :
  build_row_loop generators fake schema row now st
  = match resolve_each generators fake schema now st with
    | Ok (tr, st') => Ok (foldl (fun d kv => dict_set kv.1 kv.2 d) row tr, st')
    | Raise e => Raise e
    end.
Proof.
  revert row st. induction schema as [|field rest IH]; intros row st; [done |].
  cbn [build_row_loop resolve_each].
  destruct (resolve generators fake (strip field) now st) as [[v st1]|e];
    [| done].
  rewrite IH.
  by destruct (resolve_each generators fake rest now st1) as [[tr st2]|e].
Qed.

Lemma resolve_each_keys fake generators schema now st tr st' :
  resolve_each generators fake schema now st = Ok (tr, st') →
  tr.*1 = strip <$> schema.
Proof.
  revert st tr. induction schema as [|field rest IH]; intros st tr H.
  - by injection H as <- _.
  - cbn [resolve_each] in H.
    destruct (resolve generators fake (strip field) now st) as [[v st1]|e];
      [| discriminate].
    destruct (resolve_each generators fake rest now st1) as [[tr1 st2]|e] eqn:Hr;
      [| discriminate].
    injection H as H1 H2. subst tr st2. rewrite !fmap_cons. f_equal. by eapply IH.
Qed.

(** What a returned row is made of. *)
Lemma build_row_trace fake schema now st row st' :
  build_row fake schema now st = Ok (row, st') →
  ∃ generators tr,
    get_field_generators fake = Ok generators
    ∧ resolve_each generators fake schema now st = Ok (tr, st')
    ∧ tr.*1 = strip <$> schema
    ∧ keys row = first_occurrences [] (strip <$> schema)
    ∧ ∀ k, dict_get k row = dict_get k (reverse tr).
Proof.
  unfold build_row. intros H.
  destruct (get_field_generators fake) as [generators|] eqn:Hreg;
    [| discriminate].
  rewrite build_row_loop_trace in H.
  destruct (resolve_each generators fake schema now st) as [[tr st1]|e] eqn:Htr;
    [| discriminate].
  injection H as H1 H2. subst row st1.
  pose proof (resolve_each_keys _ _ _ _ _ _ _ Htr) as Hkeys.
  exists generators, tr. split_and!; [done.. | |].
  - by rewrite keys_assign, Hkeys.
  - intros k. rewrite dict_get_assign. by destruct (dict_get k (reverse tr)).
Qed.

(** C3.  A record the row builder returns has the trimmed field names of the
    schema as its keys, each once and in the order of their first
    occurrences; it was built from one resolution per occurrence, made from
    left to right, and a key holds the value of its last occurrence. *)
Theorem row_keys_are_schema fake schema now st row st' :
  build_row fake schema now st = Ok (row, st') →
  (∀ k, k ∈ keys row ↔ k ∈ strip <$> schema)
  ∧ NoDup (keys row)
  ∧ keys row = first_occurrences [] (strip <$> schema)
  ∧ ∃ generators tr,
      get_field_generators fake = Ok generators
      ∧ resolve_each generators fake schema now st = Ok (tr, st')
      ∧ tr.*1 = strip <$> schema
      ∧ ∀ k, dict_get k row = dict_get k (reverse tr).
Proof.
  intros (generators & tr & Hreg & Htr & Hkeys & Hk & Hget)%build_row_trace.
  destruct (first_occurrences_spec [] (strip <$> schema)) as [Hnd Hel].
  rewrite Hk. split_and!; [| done | done |].
  - intros k. rewrite Hel, elem_of_nil. tauto.
  - by exists generators, tr.
Qed.

Lemma resolve_unknown fake generators (f : string) now st :
  generators !! f = None → hasattr fake f = false →
  resolve generators fake f now st = Ok (VNone, st).
Proof.
  unfold resolve, hasattr. intros -> H. by destruct (getattr fake f).
Qed.

Lemma resolve_each_unknown fake generators schema now st tr st' (f : string) :
  generators !! f = None → hasattr fake f = false →
  resolve_each generators fake schema now st = Ok (tr, st') →
  ∀ v, (f, v) ∈ tr → v = VNone.
Proof.
  intros Hg Hf. revert st tr. induction schema as [|field rest IH]; intros st tr H v Hin.
  - injection H as <- _. by apply elem_of_nil in Hin.
  - cbn [resolve_each] in H.
    destruct (resolve generators fake (strip field) now st) as [[v1 st1]|e] eqn:Hr;
      [| discriminate].
    destruct (resolve_each generators fake rest now st1) as [[tr1 st2]|e] eqn:Hr1;
      [| discriminate].
    injection H as H1 H2. subst tr st2. apply elem_of_cons in Hin as [Heq|Hin].
    + injection Heq as Heq ->. rewrite <- Heq, resolve_unknown in Hr by done.
      by injection Hr as <- _.
    + by eapply IH.
Qed.

Lemma dict_get_constant (k : string) (v0 : value) (d : dict) :
  k ∈ keys d → (∀ v, (k, v) ∈ d → v = v0) → dict_get k d = Some v0.
Proof.
  induction d as [|[k' v'] d IH]; intros Hin Hall.
  - by apply elem_of_nil in Hin.
  - cbn [dict_get]. destruct (decide (k' = k)) as [->|Hne].
    + f_equal. apply Hall, list_elem_of_here.
    + rewrite keys_cons in Hin. apply elem_of_cons in Hin as [->|Hin]; [done |].
      apply IH; [done |]. intros v Hv. by apply Hall, list_elem_of_further.
Qed.

(** C4.  A field name with no registry mapping and no provider capability
    resolves to null without raising and without touching the generator
    state, the loop goes on with the next field, and the record returned
    holds null for it. *)
Theorem unknown_field_is_null fake generators (field : string) now :
  get_field_generators fake = Ok generators →
  strip field ∉ canonical_names →
  hasattr fake (strip field) = false →
  (∀ st, resolve generators fake (strip field) now st = Ok (VNone, st))
  ∧ (∀ rest row st,
       build_row_loop generators fake (field :: rest) row now st
       = build_row_loop generators fake rest
           (dict_set (strip field) VNone row) now st)
  ∧ (∀ schema st row st',
       field ∈ schema →
       build_row fake schema now st = Ok (row, st') →
       dict_get (strip field) row = Some VNone).
Proof.
  intros Hreg Hname Hattr.
  assert (Hg : generators !! strip field = None).
  { by apply (registry_keys fake). }
  split_and!.
  - intros st. by apply resolve_unknown.
  - intros rest row st. cbn [build_row_loop]. by rewrite resolve_unknown.
  - intros schema st row st' Hin Hrow.
    destruct (build_row_trace fake schema now st row st' Hrow)
      as (g & tr & Hg' & Htr & Hkeys & _ & Hget).
    rewrite Hreg in Hg'. injection Hg' as Hg'. subst g.
    rewrite Hget. apply dict_get_constant.
    + unfold keys. rewrite fmap_reverse, Hkeys, elem_of_reverse.
      by apply list_elem_of_fmap_2.
    + intros v Hv. rewrite elem_of_reverse in Hv.
      exact (resolve_each_unknown fake generators schema now st tr st'
               (strip field) Hg Hattr Htr v Hv).
Qed.

End Row.

(** ** Registry entries and missing capabilities *)

Section RegistryEntries.
Context {St : Type}.
Implicit Types (fake : Faker St) (generators : gmap string (gen St)).

Lemma call_missing fake (name : string) (kw : kwargs) now st :
  hasattr fake name = false →
  call fake name kw now st = Raise (AttributeError name).
Proof. unfold hasattr, call. by destruct (getattr fake name). Qed.

(** C5, as the code has it.  Building the registry succeeds exactly when the
    provider has the twenty attributes the dict literal reads; the mapping
    then has the canonical names and no other, whatever the provider; the
    entries for cpf, cnpj, rg and cnpj_empresa look their capability up when
    they are invoked and raise AttributeError if the provider lacks it; only
    celular and bairro fall back to a related capability. *)
Theorem registry_keeps_every_name fake :
  is_ok (get_field_generators fake) = forallb (hasattr fake) eager_attrs
  ∧ ∀ generators,
      get_field_generators fake = Ok generators →
      (∀ k, is_Some (generators !! k) ↔ k ∈ canonical_names)
      ∧ (∀ k, k ∈ ["cpf"; "cnpj"; "rg"] → hasattr fake k = false →
           ∃ g, generators !! k = Some g
                ∧ ∀ now st, g now st = Raise (AttributeError k))
      ∧ (hasattr fake "cnpj" = false →
           ∃ g, generators !! "cnpj_empresa" = Some g
                ∧ ∀ now st, g now st = Raise (AttributeError "cnpj"))
      ∧ (hasattr fake "cellphone_number" = false →
           generators !! "celular" = Some (call fake "phone_number" []))
      ∧ (hasattr fake "bairro" = false →
           generators !! "bairro" = Some (call fake "secondary_address" [])).
Proof.
  split; [apply registry_built_iff |].
  intros generators Hreg.
  assert (Hat : ∀ i k b, registry_literal fake !! i = Some (k, b) →
            ∃ g, eval_binding fake b = Ok g ∧ generators !! k = Some g).
  { intros i k b. by apply registry_lookup. }
  split_and!.
  - intros k. rewrite <- not_eq_None_Some, (registry_keys fake) by done.
    destruct (decide (k ∈ canonical_names)); tauto.
  - intros k Hk Hno.
    assert (Hi : ∃ i, registry_literal fake !! i = Some (k, Lambda (call fake k []))).
    { rewrite !elem_of_cons, elem_of_nil in Hk.
      destruct Hk as [->|[->|[->|[]]]]; [by exists 7%nat | by exists 8%nat | by exists 9%nat]. }
    destruct Hi as [i Hi]. destruct (Hat _ _ _ Hi) as (g & Hg & Hl).
    injection Hg as <-. exists (call fake k []). split; [done |].
    intros now st. by apply call_missing.
  - intros Hno.
    destruct (Hat 21%nat "cnpj_empresa" (Lambda (call fake "cnpj" [])) eq_refl)
      as (g & Hg & Hl).
    injection Hg as <-. exists (call fake "cnpj" []). split; [done |].
    intros now st. by apply call_missing.
  - intros Hno.
    destruct (Hat 11%nat "celular" _ eq_refl) as (g & Hg & Hl).
    injection Hg as <-. by rewrite Hno in Hl.
  - intros Hno.
    destruct (Hat 14%nat "bairro" _ eq_refl) as (g & Hg & Hl).
    injection Hg as <-. unfold hasattr in Hno.
    by destruct (getattr fake "bairro").
Qed.

End RegistryEntries.

(** ** The dataset *)

Section Dataset.
Context {St : Type}.
Implicit Types (fake : Faker St) (generators : gmap string (gen St)).

Lemma build_rows_length fake schema n now st rows st' :
  build_rows fake schema n now st = Ok (rows, st') → length rows = n.
Proof.
  revert st rows. induction n as [|n IH]; intros st rows H.
  - by injection H as <- _.
  - cbn [build_rows] in H.
    destruct (build_row fake schema now st) as [[row st1]|e]; [| discriminate].
    destruct (build_rows fake schema n now st1) as [[rows1 st2]|e] eqn:Hr;
      [| discriminate].
    injection H as H1 H2. subst rows st2. simpl. f_equal. by eapply IH.
Qed.

Lemma build_row_loop_total fake generators schema row now st :
  (∀ field st0, field ∈ schema →
     is_ok (resolve generators fake (strip field) now st0) = true) →
  is_ok (build_row_loop generators fake schema row now st) = true.
Proof.
  revert row st. induction schema as [|field rest IH]; intros row st Hall; [done |].
  cbn [build_row_loop].
  pose proof (Hall field st (list_elem_of_here _ _)) as Hf.
  destruct (resolve generators fake (strip field) now st) as [[v st1]|e];
    [| discriminate].
  apply IH. intros f st0 Hin. by apply Hall, list_elem_of_further.
Qed.

Lemma build_rows_total fake schema n now st :
  (∀ st0, is_ok (build_row fake schema now st0) = true) →
  is_ok (build_rows fake schema n now st) = true.
Proof.
  intros Hall. revert st. induction n as [|n IH]; intros st; [done |].
  cbn [build_rows]. pose proof (Hall st) as Hr.
  destruct (build_row fake schema now st) as [[row st1]|e]; [| discriminate].
  pose proof (IH st1) as Hn.
  by destruct (build_rows fake schema n now st1) as [[rows st2]|e].
Qed.

(** C1, as the code has it.  A count of 0 gives the empty sequence without
    invoking anything; whenever the assembler returns, it returns exactly
    [count] records; and it does return when the registry can be built and
    no resolution of a schema field raises. *)
Theorem dataset_has_count_rows fake schema count now st :
  0 ≤ count →
  build_dataset fake schema 0 now st = Ok ([], st)
  ∧ (∀ rows st',
       build_dataset fake schema count now st = Ok (rows, st') →
       Z.of_nat (length rows) = count)
  ∧ (∀ generators,
       get_field_generators fake = Ok generators →
       (∀ field st0, field ∈ schema →
          is_ok (resolve generators fake (strip field) now st0) = true) →
       ∃ rows st',
         build_dataset fake schema count now st = Ok (rows, st')
         ∧ Z.of_nat (length rows) = count).
Proof.
  intros Hcount. unfold build_dataset. split_and!; [done | |].
  - intros rows st' H%build_rows_length. lia.
  - intros generators Hreg Hall.
    assert (Hok : is_ok (build_rows fake schema (Z.to_nat count) now st) = true).
    { apply build_rows_total. intros st0. unfold build_row. rewrite Hreg.
      by apply build_row_loop_total. }
    destruct (build_rows fake schema (Z.to_nat count) now st)
      as [[rows st']|e] eqn:Hr; [| discriminate].
    exists rows, st'. split; [done |].
    apply build_rows_length in Hr. lia.
Qed.

End Dataset.

(** ** Lists of results *)


Lemma mapM_Ok_fmap {A B} (f : A → result B) (g : A → B) (l : list A) :
  (∀ x, x ∈ l → f x = Ok (g x)) → mapM f l = Ok (g <$> l).
Proof.
  induction l as [|x l IH]; intros H; [done |].
  cbn. rewrite (H x) by apply list_elem_of_here. cbn.
  rewrite IH; [done |]. intros y Hy. by apply H, list_elem_of_further.
Qed.


Lemma mapM_Raise {A B} (f : A → result B) (l : list A) (e : exn) :
  (∀ x e', f x = Raise e' → e' = e) →
  Exists (fun x => is_ok (f x) = false) l → mapM f l = Raise e.
Proof.
  intros Hone. induction l as [|x l IH]; intros Hex.
  - by apply Exists_nil in Hex.
  - cbn. destruct (f x) as [y|e'] eqn:Hx.
    + apply Exists_cons in Hex as [Hex|Hex]; [by rewrite Hx in Hex |].
      cbn. by rewrite IH.
    + cbn. f_equal. by eapply Hone.
Qed.


(** ** The schema main passes on *)

Lemma parse_schema_trimmed (text : string) :
  strip <$> parse_schema text = parse_schema text.
Proof.
  unfold parse_schema.
  transitivity (id <$> filter (fun s => s ≠ EmptyString) (strip <$> split comma text));
    [| apply list_fmap_id].
  apply Forall_fmap_ext, Forall_forall.
  intros x [_ Hx]%list_elem_of_filter.
  apply list_elem_of_fmap in Hx as (y & -> & _). apply strip_idemp.
Qed.

(** ** Records of a dataset against the schema *)

Section Rows.
Context {St : Type}.
Implicit Types (fake : Faker St).

Lemma build_rows_keys fake schema n now st rows st' :
  build_rows fake schema n now st = Ok (rows, st') →
  Forall (fun row => keys row = first_occurrences [] (strip <$> schema)) rows.
Proof.
  revert st rows. induction n as [|n IH]; intros st rows H.
  - injection H as <- _. constructor.
  - cbn [build_rows] in H.
    destruct (build_row fake schema now st) as [[row st1]|e] eqn:Hrow;
      [| discriminate].
    destruct (build_rows fake schema n now st1) as [[rows1 st2]|e] eqn:Hr;
      [| discriminate].
    injection H as H1 H2. subst rows st2. constructor; [| by eapply IH].
    apply build_row_trace in Hrow.
    by destruct Hrow as (g & tr & _ & _ & _ & Hk & _).
Qed.

End Rows.

Lemma first_occurrences_elem (ks : list string) (k : string) :
  k ∈ first_occurrences [] ks ↔ k ∈ ks.
Proof.
  destruct (first_occurrences_spec [] ks) as [_ H]. rewrite H, elem_of_nil.
  tauto.
Qed.


(** ** csv.DictWriter *)

Lemma dict_to_list_Ok (fieldnames : list string) (row : dict) :
  (∀ k, k ∈ keys row → k ∈ fieldnames) →
  dict_to_list fieldnames row = Ok (row_values fieldnames row).
Proof.
  intros H. unfold dict_to_list.
  assert (Hb : forallb (fun k => bool_decide (k ∈ fieldnames)) (keys row) = true).
  { apply forallb_forall. intros k Hk%list_elem_of_In.
    by apply bool_decide_eq_true, H. }
  by rewrite Hb.
Qed.

Lemma zip_fmap_elem {A B} (f : A → B) (ks : list A) (k : A) (v : B) :
  (k, v) ∈ zip ks (f <$> ks) → v = f k.
Proof.
  induction ks as [|a ks IH]; simpl; intros H.
  - by apply elem_of_nil in H.
  - apply elem_of_cons in H as [H|H]; [by injection H as -> -> | by apply IH].
Qed.

Lemma dict_of_zip_get (f : string → value) (ks : list string) (k : string) :
  k ∈ ks → dict_get k (dict_of_pairs (zip ks (f <$> ks))) = Some (f k).
Proof.
  intros Hin. unfold dict_of_pairs. rewrite dict_get_assign.
  assert (Hfst : (zip ks (f <$> ks)).*1 = ks).
  { apply fst_zip. by rewrite length_fmap. }
  rewrite (dict_get_constant k (f k)); [done | |].
  - unfold keys. by rewrite fmap_reverse, Hfst, elem_of_reverse.
  - intros v Hv. rewrite elem_of_reverse in Hv. by eapply zip_fmap_elem.
Qed.

Lemma dict_of_zip_keys (f : string → value) (ks : list string) :
  keys (dict_of_pairs (zip ks (f <$> ks))) = first_occurrences [] ks.
Proof.
  unfold dict_of_pairs. rewrite keys_assign. simpl.
  by rewrite fst_zip by (by rewrite length_fmap).
Qed.

Lemma writeheader_Ok (fieldnames : list string) :
  writeheader fieldnames = Ok (writerow (VStr <$> fieldnames)).
Proof.
  unfold writeheader. rewrite dict_to_list_Ok.
  - cbn. do 2 f_equal. unfold row_values.
    apply Forall_fmap_ext, Forall_forall. intros k Hk.
    by rewrite dict_of_zip_get.
  - intros k. by rewrite dict_of_zip_keys, first_occurrences_elem.
Qed.

Lemma writerows_Ok (fieldnames : list string) (rows : list dict) :
  Forall (fun row => keys row = first_occurrences [] fieldnames) rows →
  writerows fieldnames rows
  = Ok (String.concat EmptyString (writerow ∘ row_values fieldnames <$> rows)).
Proof.
  intros Hrows. unfold writerows.
  rewrite (mapM_Ok_fmap _ (writerow ∘ row_values fieldnames)); [done |].
  intros row Hrow. rewrite Forall_forall in Hrows.
  rewrite dict_to_list_Ok; [done |].
  intros k. rewrite (Hrows row Hrow). by rewrite first_occurrences_elem.
Qed.

Lemma write_csv_Ok (schema : list string) (rows : list dict) :
  Forall (fun row => keys row = first_occurrences [] schema) rows →
  write_csv schema rows
  = Ok (String.concat EmptyString
          (writerow <$> (VStr <$> schema) :: (row_values schema <$> rows))).
Proof.
  intros Hrows. unfold write_csv.
  rewrite writeheader_Ok, writerows_Ok by done.
  rewrite fmap_cons, concat_empty_cons, list_fmap_compose. done.
Qed.

(** ** json.dump *)





Section Json.
Context {St : Type}.
Implicit Types (fake : Faker St).


End Json.

(** ** csv.reader reads back what csv.writer wrote *)

Lemma is_newline_special (c : ascii) : special c = false → is_newline c = false.
Proof.
  unfold special, is_newline. intros H%bool_decide_eq_false.
  apply bool_decide_eq_false. tauto.
Qed.

Lemma special_not_comma (c : ascii) : special c = false → c ≠ comma.
Proof. unfold special. intros H%bool_decide_eq_false. tauto. Qed.

Lemma special_not_dquote (c : ascii) : special c = false → c ≠ dquote.
Proof. unfold special. intros H%bool_decide_eq_false. tauto. Qed.

Lemma ends_line_no (c d : ascii) (rest : string) :
  is_newline c = false → ends_line c (String d rest) = false.
Proof.
  unfold is_newline, ends_line. intros H%bool_decide_eq_false.
  rewrite !bool_decide_eq_false_2 by tauto. done.
Qed.

Lemma ends_line_LF (rest : string) : ends_line LF rest = true.
Proof. by destruct rest. Qed.

(** One step of the reader, unfolded once. *)
Lemma read_records_cons (r : reader) (c : ascii) (rest : string) :
  read_records r (String c rest)
  = match process_char r c with
    | Raise e => Raise e
    | Ok r1 =>
        if ends_line c rest then
          if decide (state (process_eol r1) = START_RECORD) then
            match read_records parse_reset rest with
            | Ok rows => Ok (fields (process_eol r1) :: rows)
            | Raise e => Raise e
            end
          else read_records (process_eol r1) rest
        else read_records r1 rest
    end.
Proof. done. Qed.

(** A character in the middle of a line. *)
Lemma read_step (r r1 : reader) (c d : ascii) (rest : string) :
  process_char r c = Ok r1 → is_newline c = false →
  read_records r (String c (String d rest)) = read_records r1 (String d rest).
Proof.
  intros Hc Hnl. by rewrite read_records_cons, Hc, ends_line_no.
Qed.

(** The steps of the machine the writer's output drives it through. *)
Section Steps.
Variables (fs : list string) (f : string).

Lemma step_quoted_char (c : ascii) :
  c ≠ dquote →
  process_char (Reader IN_QUOTED_FIELD fs f) c
  = Ok (Reader IN_QUOTED_FIELD fs (f +:+ String c EmptyString)).
Proof. intros Hc. unfold process_char. simpl. by rewrite decide_False. Qed.

Lemma step_quoted_quote :
  process_char (Reader IN_QUOTED_FIELD fs f) dquote
  = Ok (Reader QUOTE_IN_QUOTED_FIELD fs f).
Proof. done. Qed.

Lemma step_quote_quote :
  process_char (Reader QUOTE_IN_QUOTED_FIELD fs f) dquote
  = Ok (Reader IN_QUOTED_FIELD fs (f +:+ String dquote EmptyString)).
Proof. done. Qed.

Lemma step_field_char (c : ascii) :
  special c = false →
  process_char (Reader IN_FIELD fs f) c
  = Ok (Reader IN_FIELD fs (f +:+ String c EmptyString)).
Proof.
  intros Hc. unfold process_char. simpl.
  rewrite (is_newline_special c Hc).
  by rewrite decide_False by by apply special_not_comma.
Qed.

Lemma step_start_char (c : ascii) :
  special c = false →
  process_char (Reader START_FIELD fs f) c
  = Ok (Reader IN_FIELD fs (f +:+ String c EmptyString)).
Proof.
  intros Hc. unfold process_char, start_field. simpl.
  rewrite (is_newline_special c Hc).
  rewrite (decide_False (P := c = dquote)) by by apply special_not_dquote.
  by rewrite decide_False by by apply special_not_comma.
Qed.

Lemma step_start_quote :
  process_char (Reader START_FIELD fs f) dquote = Ok (Reader IN_QUOTED_FIELD fs f).
Proof. done. Qed.

End Steps.

Lemma step_done_comma (r : reader) :
  field_done r →
  process_char r comma = Ok (Reader START_FIELD (fields r ++ [field r]) EmptyString).
Proof. destruct r as [st fs f]. by intros [Hr|[Hr|Hr]]; simpl in Hr; subst st. Qed.

Lemma step_done_CR (r : reader) :
  field_done r →
  process_char r CR = Ok (Reader EAT_CRNL (fields r ++ [field r]) EmptyString).
Proof. destruct r as [st fs f]. by intros [Hr|[Hr|Hr]]; simpl in Hr; subst st. Qed.

Lemma is_newline_dquote : is_newline dquote = false.
Proof. done. Qed.

Lemma is_newline_comma : is_newline comma = false.
Proof. done. Qed.

(** Text followed by a character is not empty. *)
Lemma append_String_inv (s : string) (d : ascii) (k : string) :
  ∃ d' rest, s +:+ String d k = String d' rest.
Proof. destruct s; simpl; eauto. Qed.

(** Inside a quoted field every character but the quote is data, and the
    end of a line changes nothing. *)
Lemma read_in_quoted (fs : list string) (f : string) (c d : ascii) (rest : string) :
  c ≠ dquote →
  read_records (Reader IN_QUOTED_FIELD fs f) (String c (String d rest))
  = read_records (Reader IN_QUOTED_FIELD fs (f +:+ String c EmptyString))
      (String d rest).
Proof.
  intros Hc. rewrite read_records_cons, step_quoted_char by done.
  by destruct (ends_line c (String d rest)).
Qed.

Lemma read_quoted_body (s : string) (fs : list string) (f : string) (k : string) :
  read_records (Reader IN_QUOTED_FIELD fs f) (double_quotes s +:+ String dquote k)
  = read_records (Reader IN_QUOTED_FIELD fs (f +:+ s)) (String dquote k).
Proof.
  revert f. induction s as [|c s IH]; intros f.
  - by rewrite append_nil_r.
  - cbn [double_quotes].
    destruct (append_String_inv (double_quotes s) dquote k) as (d & rest & Hrest).
    assert (Hfield : (f +:+ String c EmptyString) +:+ s = f +:+ String c s).
    { by rewrite append_assoc. }
    destruct (decide (c = dquote)) as [->|Hc].
    + rewrite !append_cons.
      rewrite (read_step _ _ _ _ _ (step_quoted_quote fs f) is_newline_dquote).
      rewrite Hrest.
      rewrite (read_step _ _ _ _ _ (step_quote_quote fs f) is_newline_dquote).
      by rewrite <- Hrest, IH, Hfield.
    + rewrite append_cons, Hrest, read_in_quoted by done.
      by rewrite <- Hrest, IH, Hfield.
Qed.

(** In an unquoted field an ordinary character is data. *)
Lemma read_plain_text (s : string) (fs : list string) (f : string) (d : ascii) (k : string) :
  needs_quote s = false →
  read_records (Reader IN_FIELD fs f) (s +:+ String d k)
  = read_records (Reader IN_FIELD fs (f +:+ s)) (String d k).
Proof.
  revert f. induction s as [|c s IH]; intros f Hs.
  - by rewrite append_nil_r.
  - cbn [needs_quote] in Hs. apply orb_false_iff in Hs as [Hc Hs].
    destruct (append_String_inv s d k) as (d' & rest & Hrest).
    rewrite append_cons, Hrest.
    rewrite (read_step _ _ _ _ _ (step_field_char fs f c Hc) (is_newline_special c Hc)).
    by rewrite <- Hrest, IH, append_assoc.
Qed.

(** One field as the writer leaves it, read from the start of a field. *)
Lemma read_field (v : value) (fs : list string) (d : ascii) (k : string) :
  ∃ r', read_records (Reader START_FIELD fs EmptyString)
          (join_append v +:+ String d k)
        = read_records r' (String d k)
        ∧ field_done r' ∧ fields r' = fs ∧ field r' = field_text v.
Proof.
  unfold join_append. destruct (needs_quote (field_text v)) eqn:Hq.
  - exists (Reader QUOTE_IN_QUOTED_FIELD fs (field_text v)).
    split; [| by unfold field_done; auto].
    unfold quoted. rewrite append_cons, append_assoc, append_cons.
    change (EmptyString +:+ String d k) with (String d k).
    destruct (append_String_inv (double_quotes (field_text v)) dquote (String d k))
      as (d' & rest & Hrest).
    rewrite Hrest.
    rewrite (read_step _ _ _ _ _ (step_start_quote fs EmptyString) is_newline_dquote).
    rewrite <- Hrest, read_quoted_body.
    change (EmptyString +:+ field_text v) with (field_text v).
    by rewrite (read_step _ _ _ _ _ (step_quoted_quote fs (field_text v)) is_newline_dquote).
  - destruct (field_text v) as [|c s] eqn:Hs.
    + exists (Reader START_FIELD fs EmptyString). split; [done |].
      unfold field_done. auto.
    + exists (Reader IN_FIELD fs (String c s)).
      split; [| by unfold field_done; auto].
      cbn [needs_quote] in Hq. apply orb_false_iff in Hq as [Hc Hq].
      destruct (append_String_inv s d k) as (d' & rest & Hrest).
      rewrite append_cons, Hrest.
      rewrite (read_step _ _ _ _ _ (step_start_char fs EmptyString c Hc)
                 (is_newline_special c Hc)).
      by rewrite <- Hrest, read_plain_text.
Qed.

(** The delimiter closes the field. *)
Lemma read_delimiter (r : reader) (d : ascii) (k : string) :
  field_done r →
  read_records r (String comma (String d k))
  = read_records (Reader START_FIELD (fields r ++ [field r]) EmptyString)
      (String d k).
Proof.
  intros Hr. by rewrite (read_step _ _ _ _ _ (step_done_comma r Hr) is_newline_comma).
Qed.

(** LF after CR, then the end of the line: the record is complete. *)
Lemma read_eat_LF (fs : list string) (f : string) (k : string) :
  read_records (Reader EAT_CRNL fs f) (String LF k)
  = match read_records parse_reset k with
    | Ok rows => Ok (fs :: rows)
    | Raise e => Raise e
    end.
Proof. rewrite read_records_cons, ends_line_LF. done. Qed.

(** CR LF closes the field and the record. *)
Lemma read_terminator (r : reader) (k : string) :
  field_done r →
  read_records r (lineterminator +:+ k)
  = match read_records parse_reset k with
    | Ok rows => Ok ((fields r ++ [field r]) :: rows)
    | Raise e => Raise e
    end.
Proof.
  intros Hr. change (lineterminator +:+ k) with (String CR (String LF k)).
  rewrite read_records_cons, (step_done_CR r Hr).
  change (ends_line CR (String LF k)) with false. cbv iota.
  apply read_eat_LF.
Qed.

Lemma concat_comma_cons (x y : string) (xs : list string) :
  String.concat (String comma EmptyString) (x :: y :: xs)
  = x +:+ String comma (String.concat (String comma EmptyString) (y :: xs)).
Proof. done. Qed.

(** The fields of a record that is not empty, read from the start of a
    field. *)
Lemma read_fields (vs : list value) (fs : list string) (k : string) :
  vs ≠ [] →
  read_records (Reader START_FIELD fs EmptyString)
    (String.concat (String comma EmptyString) (join_append <$> vs)
     +:+ lineterminator +:+ k)
  = match read_records parse_reset k with
    | Ok rows => Ok ((fs ++ (field_text <$> vs)) :: rows)
    | Raise e => Raise e
    end.
Proof.
  revert fs. induction vs as [|v vs IH]; intros fs Hne; [done |].
  destruct vs as [|v2 vs].
  - cbn [fmap list_fmap String.concat].
    change (lineterminator +:+ k) with (String CR (String LF k)).
    destruct (read_field v fs CR (String LF k)) as (r' & -> & Hd & Hfs & Hfd).
    change (String CR (String LF k)) with (lineterminator +:+ k).
    rewrite read_terminator by done. by rewrite Hfs, Hfd.
  - rewrite !fmap_cons, concat_comma_cons, append_assoc, append_cons.
    destruct (read_field v fs comma
                (String.concat (String comma EmptyString)
                   (join_append v2 :: (join_append <$> vs))
                 +:+ lineterminator +:+ k)) as (r' & -> & Hd & Hfs & Hfd).
    destruct (append_String_inv
                (String.concat (String comma EmptyString)
                   (join_append v2 :: (join_append <$> vs)))
                CR (String LF k)) as (d & rest & Hrest).
    change (lineterminator +:+ k) with (String CR (String LF k)).
    rewrite Hrest, read_delimiter by done. rewrite <- Hrest.
    change (String CR (String LF k)) with (lineterminator +:+ k).
    rewrite <- fmap_cons, IH by done.
    by rewrite Hfs, Hfd, <- app_assoc.
Qed.

(** At the start of a record a character that is not a line end starts a
    field. *)
Lemma read_start_record (c : ascii) (rest : string) :
  is_newline c = false →
  read_records parse_reset (String c rest)
  = read_records (Reader START_FIELD [] EmptyString) (String c rest).
Proof.
  intros Hc. rewrite !read_records_cons. unfold process_char. cbn [parse_reset state].
  by rewrite Hc.
Qed.

Lemma join_append_head (v : value) (c : ascii) (s : string) :
  join_append v = String c s → is_newline c = false.
Proof.
  unfold join_append. destruct (needs_quote (field_text v)) eqn:Hq.
  - unfold quoted. intros H. by injection H as <- _.
  - intros H. rewrite H in Hq. cbn [needs_quote] in Hq.
    apply orb_false_iff in Hq as [Hc _]. by apply is_newline_special.
Qed.

Lemma join_append_empty (v : value) :
  join_append v = EmptyString → field_text v = EmptyString.
Proof.
  unfold join_append. destruct (needs_quote (field_text v)); [| done].
  unfold quoted. discriminate.
Qed.

(** One record, then the rest of the file. *)
Lemma read_writerow (vs : list value) (k : string) :
  read_records parse_reset (writerow vs +:+ k)
  = match read_records parse_reset k with
    | Ok rows => Ok ((field_text <$> vs) :: rows)
    | Raise e => Raise e
    end.
Proof.
  unfold writerow.
  destruct vs as [|v vs].
  - (* no field: an empty line *)
    cbn [map String.concat].
    change ((EmptyString +:+ lineterminator) +:+ k) with (String CR (String LF k)).
    rewrite read_records_cons.
    change (process_char parse_reset CR) with (Ok (Reader EAT_CRNL [] EmptyString)).
    change (ends_line CR (String LF k)) with false. cbv iota.
    apply read_eat_LF.
  - change (map join_append (v :: vs)) with (join_append <$> v :: vs).
    destruct (String.concat (String comma EmptyString) (join_append <$> v :: vs))
      as [|c body] eqn:Hbody.
    + (* one empty field, written quoted *)
      assert (vs = [] ∧ field_text v = EmptyString) as [-> Hv].
      { rewrite fmap_cons in Hbody. destruct vs as [|v2 vs].
        - split; [done |]. by apply join_append_empty.
        - rewrite fmap_cons, concat_comma_cons in Hbody.
          by destruct (join_append v). }
      cbn [fmap list_fmap]. rewrite Hv.
      change ((quoted EmptyString +:+ lineterminator) +:+ k)
        with (String dquote (String dquote (lineterminator +:+ k))).
      rewrite read_start_record by done.
      rewrite (read_step _ _ _ _ _ (step_start_quote [] EmptyString) is_newline_dquote).
      change (lineterminator +:+ k) with (String CR (String LF k)).
      rewrite (read_step _ _ _ _ _ (step_quoted_quote [] EmptyString) is_newline_dquote).
      change (String CR (String LF k)) with (lineterminator +:+ k).
      by rewrite read_terminator by (unfold field_done; auto).
    + (* the record has text: it does not start with a line end *)
      assert (Hc : is_newline c = false).
      { rewrite fmap_cons in Hbody. destruct vs as [|v2 vs].
        - cbn [fmap list_fmap String.concat] in Hbody.
          by eapply join_append_head.
        - rewrite fmap_cons, concat_comma_cons in Hbody.
          destruct (join_append v) as [|c' s'] eqn:Hv.
          + by injection Hbody as <- _.
          + rewrite append_cons in Hbody. injection Hbody as <- _.
            by eapply join_append_head. }
      rewrite append_assoc, append_cons, read_start_record by done.
      rewrite <- append_cons, <- Hbody.
      by rewrite (read_fields (v :: vs) [] k).
Qed.

(** The whole file. *)
Lemma csv_reader_writer (table : list (list value)) :
  csv_reader (String.concat EmptyString (writerow <$> table))
  = Ok (map (map field_text) table).
Proof.
  unfold csv_reader. induction table as [|vs table IH]; [done |].
  rewrite fmap_cons, concat_empty_cons, read_writerow, IH. done.
Qed.

Lemma field_text_VStr (ks : list string) : map field_text (VStr <$> ks) = ks.
Proof.
  induction ks as [|k ks IH]; [done |].
  rewrite fmap_cons. cbn [map]. by rewrite IH.
Qed.


(** ** The csv file of a run *)

Section Csv.
Context {St : Type}.
Implicit Types (fake : Faker St).

(** What main hands to the writer: records keyed by the schema itself. *)
Lemma dataset_keys fake (text : string) count now st rows st' :
  build_dataset fake (parse_schema text) count now st = Ok (rows, st') →
  Forall (fun row => keys row = first_occurrences [] (parse_schema text)) rows.
Proof.
  intros H%build_rows_keys. by rewrite parse_schema_trimmed in H.
Qed.





End Csv.

(** ** Runs of main *)

Lemma bind_Ok {A B} (a : A) (f : A → result B) : (Ok a ≫= f) = f a.
Proof. done. Qed.

Lemma parse_schema_nonempty (text : string) :
  Forall (fun f => f ≠ EmptyString) (parse_schema text).
Proof.
  apply Forall_forall. unfold parse_schema.
  by intros f [Hf _]%list_elem_of_filter.
Qed.

(** Names that need no quoting make a line of themselves and commas. *)
Lemma writerow_plain (names : list string) :
  Forall (fun f => needs_quote f = false) names →
  Forall (fun f => f ≠ EmptyString) names →
  writerow (VStr <$> names)
  = String.concat "," names +:+ lineterminator.
Proof.
  intros Hplain Hne. unfold writerow.
  assert (Hmap : map join_append (VStr <$> names) = names).
  { clear Hne. induction Hplain as [|f names Hf _ IH]; [done |].
    rewrite fmap_cons. cbn [map]. rewrite IH. f_equal.
    unfold join_append. cbn [field_text py_str]. by rewrite Hf. }
  rewrite Hmap. change (String comma EmptyString) with ",".
  destruct names as [|f names]; [done |].
  apply Forall_cons in Hne as [Hf _]. rewrite fmap_cons.
  destruct f as [|c f]; [done |]. by destruct names.
Qed.

Section Runs.
Context {St : Type}.
Implicit Types (fake : Faker St) (generators : gmap string (gen St)).
Implicit Types (lib : Library St) (env : Env St).




(** C10.  A negative row count runs exactly as a count of 0 does, in every
    environment.  With the provider constructed, no record is built and the
    text to write is the header alone for csv (read back it is one record,
    the schema; when no name needs quoting it is the names joined by commas
    and a line end) or the empty array for json; the run returns with it,
    unless the destination cannot be opened or written, in which case it
    raises OSError, as a run of count 0 does. *)
Theorem negative_rows_like_zero lib args env (n : Z) :
  n < 0 →
  main lib (with_rows n args) env = main lib (with_rows 0 args) env
  ∧ ∀ fake,
      Faker_new lib (args_locale args) = Ok fake →
      ∃ text,
        match args_format args with
        | csv =>
            csv_reader text = Ok [parse_schema (args_schema args)]
            ∧ (Forall (fun f => needs_quote f = false)
                 (parse_schema (args_schema args)) →
               text = String.concat "," (parse_schema (args_schema args))
                      +:+ lineterminator)
        | json => text = "[]"
        end
        ∧ main lib (with_rows n args) env
          = if can_open env (destination args (clock env))
               && can_write env (destination args (clock env)) text
            then Ok {| run_path := destination args (clock env);
                       run_text := text;
                       run_fields := parse_schema (args_schema args);
                       run_lines := 0 |}
            else Raise OSError.
Proof.
  intros Hn. assert (Hz : Z.to_nat n = 0%nat) by lia.
  unfold main, build_dataset. cbn [with_rows args_rows args_locale args_format
    args_schema args_output args_seed]. rewrite Hz. split; [done |].
  intros fake ->. rewrite bind_Ok. cbv zeta. cbn [build_rows Z.to_nat].
  rewrite bind_Ok.
  change (destination (with_rows n args) (clock env))
    with (destination args (clock env)).
  unfold open_w, write_all.
  destruct (args_format args).
  - exists (writerow (VStr <$> parse_schema (args_schema args))). split_and!.
    + pose proof (csv_reader_writer [VStr <$> parse_schema (args_schema args)]) as Hread.
      cbn [fmap list_fmap String.concat map] in Hread.
      by rewrite field_text_VStr in Hread.
    + intros Hplain. apply writerow_plain; [done | apply parse_schema_nonempty].
    + unfold serialise. rewrite write_csv_Ok by constructor.
      change (String.concat EmptyString
                (writerow <$> [VStr <$> parse_schema (args_schema args)]))
        with (writerow (VStr <$> parse_schema (args_schema args))).
      destruct (can_open env _); [| done]. rewrite !bind_Ok.
      by destruct (can_write env _ _).
  - exists "[]". split; [done |].
    destruct (can_open env _); [| done]. rewrite bind_Ok.
    change (serialise json (parse_schema (args_schema args)) [])
      with (@Ok string "[]"). rewrite bind_Ok.
    by destruct (can_write env _ _).
Qed.

End Runs.

(** * The properties on concrete runs *)

Lemma sample_en_registry :
  get_field_generators sample_en_US = Ok sample_en_generators.
Proof. reflexivity. Qed.

(** C1 as stated fails: with a provider that has no [cpf], one row of the
    schema [cpf] is asked for and none is produced. *)
Lemma dataset_can_raise :
  0 ≤ 1
  ∧ build_dataset sample_en_US ["cpf"] 1 0 0%nat = Raise (AttributeError "cpf")
  ∧ ¬ ∃ rows st',
        build_dataset sample_en_US ["cpf"] 1 0 0%nat = Ok (rows, st')
        ∧ Z.of_nat (length rows) = 1.
Proof.
  split; [lia |]. split; [reflexivity |].
  intros (rows & st' & H & _). vm_compute in H. discriminate H.
Qed.

Lemma dataset_has_count_rows_witness :
  0 ≤ 2
  ∧ get_field_generators sample_en_US = Ok sample_en_generators
  ∧ ∃ rows st',
      build_dataset sample_en_US ["nome"; " zz "] 2 0 0%nat = Ok (rows, st')
      ∧ Z.of_nat (length rows) = 2.
Proof.
  split; [lia |]. split; [reflexivity |].
  destruct (dataset_has_count_rows sample_en_US ["nome"; " zz "] 2 0 0%nat)
    as (_ & _ & H); [lia |].
  apply (H sample_en_generators); [reflexivity |].
  intros field st0 Hin.
  apply elem_of_cons in Hin as [->|Hin]; [reflexivity |].
  apply elem_of_cons in Hin as [->|Hin]; [reflexivity |].
  by apply elem_of_nil in Hin.
Defined.

Lemma row_builder_algorithm_witness :
  get_field_generators sample_en_US = Ok sample_en_generators
  ∧ build_row sample_en_US ["nome"; " zz "; "city"] 0 0%nat
    = Ok ([("nome", VStr "name"); ("zz", VNone); ("city", VStr "city")], 2%nat)
  ∧ strip " zz " = "zz"
  ∧ ∃ lead trail,
      " zz " = lead +:+ strip " zz " +:+ trail
      ∧ all_space lead = true ∧ all_space trail = true
      ∧ starts_with_space (strip " zz ") = false
      ∧ ends_with_space (strip " zz ") = false.
Proof.
  split; [reflexivity |]. split; [reflexivity |]. split; [reflexivity |].
  exact (proj1 (row_builder_algorithm sample_en_US sample_en_generators " zz "
                  ["city"] [("nome", VStr "name")] 0 1%nat sample_en_registry)).
Defined.

Lemma row_keys_are_schema_witness :
  build_row sample_en_US ["nome"; " zz "; "nome"] 0 0%nat
  = Ok ([("nome", VStr "name"); ("zz", VNone)], 2%nat)
  ∧ keys [("nome", VStr "name"); ("zz", VNone)]
    = first_occurrences [] (strip <$> ["nome"; " zz "; "nome"]).
Proof.
  split; [reflexivity |].
  apply (row_keys_are_schema sample_en_US ["nome"; " zz "; "nome"] 0 0%nat _ 2%nat).
  reflexivity.
Defined.

Lemma unknown_field_is_null_witness :
  get_field_generators sample_en_US = Ok sample_en_generators
  ∧ (strip " campo_inexistente " ∉ canonical_names)
  ∧ hasattr sample_en_US (strip " campo_inexistente ") = false
  ∧ ∀ st, resolve sample_en_generators sample_en_US
            (strip " campo_inexistente ") 0 st = Ok (VNone, st).
Proof.
  assert (Hname : strip " campo_inexistente " ∉ canonical_names).
  { apply (bool_decide_unpack (strip " campo_inexistente " ∉ canonical_names)).
    vm_compute. exact I. }
  split; [reflexivity |]. split; [exact Hname |]. split; [reflexivity |].
  apply (unknown_field_is_null sample_en_US sample_en_generators
           " campo_inexistente " 0); [reflexivity | exact Hname | reflexivity].
Defined.

(** C5 as stated fails: the provider has no [cpf], yet the registry is built
    with an entry for cpf, and invoking the entry raises; and a provider
    without [state] makes the construction itself raise. *)
Lemma registry_entry_can_raise :
  hasattr sample_en_US "cpf" = false
  ∧ (∃ generators g,
       get_field_generators sample_en_US = Ok generators
       ∧ generators !! "cpf" = Some g
       ∧ g 0 0%nat = Raise (AttributeError "cpf"))
  ∧ get_field_generators sample_no_state = Raise (AttributeError "state").
Proof.
  split; [reflexivity |]. split; [| reflexivity].
  exists sample_en_generators, (call sample_en_US "cpf" []).
  split; [reflexivity |]. split; reflexivity.
Qed.

Lemma registry_keeps_every_name_witness :
  get_field_generators sample_en_US = Ok sample_en_generators
  ∧ hasattr sample_en_US "cellphone_number" = false
  ∧ sample_en_generators !! "celular" = Some (call sample_en_US "phone_number" []).
Proof.
  split; [reflexivity |]. split; [reflexivity |].
  destruct (registry_keeps_every_name sample_en_US) as [_ H].
  destruct (H sample_en_generators) as (_ & _ & _ & Hcel & _); [reflexivity |].
  apply Hcel. reflexivity.
Defined.




(** C8.  The code at the input where it departs from the claim: same seed,
    locale, schema and row count, every path writable, two clock readings.
    Both runs return, and the files differ: the timestamp entry asks the
    provider for a time up to now. *)
Lemma seeded_runs_can_differ :
  args_seed (sample_args csv "timestamp" 1) = Some 42
  ∧ main sample_library (sample_args csv "timestamp" 1) (sample_env 0 0)
    = Ok {| run_path := Given "out";
            run_text := "timestamp" +:+ lineterminator
                        +:+ "1969-12-31T23:59:59" +:+ lineterminator;
            run_fields := ["timestamp"]; run_lines := 1 |}
  ∧ main sample_library (sample_args csv "timestamp" 1) (sample_env 5000 0)
    = Ok {| run_path := Given "out";
            run_text := "timestamp" +:+ lineterminator
                        +:+ "1970-01-01T00:16:40" +:+ lineterminator;
            run_fields := ["timestamp"]; run_lines := 1 |}
  ∧ run_text <$> main sample_library (sample_args csv "timestamp" 1)
                   (sample_env 0 0)
    ≠ run_text <$> main sample_library (sample_args csv "timestamp" 1)
                     (sample_env 5000 0).
Proof.
  split; [reflexivity |].
  split; [vm_compute; reflexivity |]. split; [vm_compute; reflexivity |].
  vm_compute. discriminate.
Qed.



Lemma negative_rows_like_zero_witness :
  -3 < 0
  ∧ main sample_library (with_rows (-3) (sample_args csv "nome,zz" 5))
      (sample_env 0 0)
    = Ok {| run_path := Given "out";
            run_text := "nome,zz" +:+ lineterminator;
            run_fields := ["nome"; "zz"]; run_lines := 0 |}
  ∧ main sample_library (with_rows (-3) (sample_args json "nome,zz" 5))
      (sample_env 0 0)
    = Ok {| run_path := Given "out"; run_text := "[]";
            run_fields := ["nome"; "zz"]; run_lines := 0 |}
  ∧ main sample_library (with_rows (-3) (sample_args csv "nome,zz" 5))
      (sample_env_read_only 0 0)
    = Raise OSError
  ∧ main sample_library (with_rows (-3) (sample_args csv "nome,zz" 5))
      (sample_env 0 0)
    = main sample_library (with_rows 0 (sample_args csv "nome,zz" 5))
        (sample_env 0 0).
Proof.
  split; [lia |]. split; [reflexivity |]. split; [reflexivity |].
  split; [reflexivity |].
  apply (negative_rows_like_zero sample_library (sample_args csv "nome,zz" 5)
           (sample_env 0 0) (-3)).
  lia.
Defined.

(** * Further properties of the program *)

(** ** The schema option *)

Lemma has_char_lstrip (c : ascii) (s : string) :
  has_char c s = false → has_char c (lstrip s) = false.
Proof.
  induction s as [|d s IH]; [done |].
  cbn [lstrip has_char]. intros H. destruct (isspace d); [| done].
  apply orb_false_iff in H as [_ H]. by apply IH.
Qed.

Lemma has_char_rstrip (c : ascii) (s : string) :
  has_char c s = false → has_char c (rstrip s) = false.
Proof.
  induction s as [|d s IH]; [done |].
  cbn [rstrip has_char]. intros H. apply orb_false_iff in H as [Hd H].
  specialize (IH H). destruct (rstrip s) as [|e r].
  - destruct (isspace d); [done |]. cbn [has_char]. by rewrite Hd.
  - cbn [has_char] in *. by rewrite Hd, IH.
Qed.

Lemma has_char_strip (c : ascii) (s : string) :
  has_char c s = false → has_char c (strip s) = false.
Proof. intros H. by apply has_char_lstrip, has_char_rstrip. Qed.

(** No piece of a split holds the separator. *)
Lemma split_pieces (sep : ascii) (s : string) :
  Forall (fun x => has_char sep x = false) (split sep s).
Proof.
  induction s as [|c s IH]; [by repeat constructor |].
  cbn [split]. destruct (decide (c = sep)) as [->|Hc]; [by constructor |].
  destruct (split sep s) as [|x xs]; [by apply Forall_nil in IH; repeat constructor; cbn; rewrite bool_decide_eq_false_2 |].
  apply Forall_cons in IH as [Hx Hxs]. constructor; [| done].
  cbn [has_char]. by rewrite bool_decide_eq_false_2.
Qed.

(** A text without the separator is one piece. *)
Lemma split_one (sep : ascii) (x : string) :
  has_char sep x = false → split sep x = [x].
Proof.
  induction x as [|c x IH]; [done |].
  cbn [has_char split]. intros H. apply orb_false_iff in H as [Hc H].
  apply bool_decide_eq_false in Hc. rewrite decide_False by done.
  by rewrite IH.
Qed.

Lemma split_app (sep : ascii) (x rest : string) :
  has_char sep x = false →
  split sep (x +:+ String sep rest) = x :: split sep rest.
Proof.
  induction x as [|c x IH].
  - intros _. change (EmptyString +:+ String sep rest) with (String sep rest).
    cbn [split]. by rewrite decide_True.
  - cbn [has_char]. intros H. apply orb_false_iff in H as [Hc H].
    apply bool_decide_eq_false in Hc. rewrite append_cons. cbn [split].
    rewrite decide_False by done. by rewrite IH.
Qed.

Lemma split_concat (sep : ascii) (names : list string) :
  names ≠ [] → Forall (fun x => has_char sep x = false) names →
  split sep (String.concat (String sep EmptyString) names) = names.
Proof.
  induction names as [|x names IH]; [done |]. intros _ Hall.
  apply Forall_cons in Hall as [Hx Hall].
  destruct names as [|y names].
  - by apply split_one.
  - change (String.concat (String sep EmptyString) (x :: y :: names))
      with (x +:+ String sep (String.concat (String sep EmptyString) (y :: names))).
    rewrite split_app by done. by rewrite IH.
Qed.

Lemma filter_all {A} (P : A → Prop) `{∀ x, Decision (P x)} (l : list A) :
  Forall P l → filter P l = l.
Proof.
  induction 1 as [|x l Hx _ IH]; [done |].
  by rewrite filter_cons_True, IH.
Qed.

(** X1.  Every name of the schema main works with is trimmed, is not empty
    and holds no comma, whatever text the option was given. *)
Theorem parse_schema_entries (text f : string) :
  f ∈ parse_schema text →
  strip f = f ∧ f ≠ EmptyString ∧ has_char comma f = false.
Proof.
  unfold parse_schema. intros [Hne Hin]%list_elem_of_filter.
  apply list_elem_of_fmap in Hin as (y & -> & Hy).
  split_and!; [apply strip_idemp | done |].
  apply has_char_strip.
  pose proof (split_pieces comma text) as Hall. rewrite Forall_forall in Hall.
  by apply Hall.
Qed.

(** X2.  Joining names with commas and parsing the text gives the names
    back, provided each is trimmed, not empty and without a comma: this is
    how the default of the schema option becomes DEFAULT_SCHEMA. *)
Theorem parse_schema_join (names : list string) :
  Forall (fun f => strip f = f ∧ f ≠ EmptyString ∧ has_char comma f = false)
    names →
  parse_schema (String.concat "," names) = names.
Proof.
  intros Hall. destruct names as [|x names]; [done |].
  unfold parse_schema.
  change "," with (String comma EmptyString).
  rewrite split_concat; [| done |].
  - assert (Hstrip : strip <$> (x :: names) = x :: names).
    { transitivity (id <$> (x :: names)); [| apply list_fmap_id].
      apply Forall_fmap_ext. eapply Forall_impl; [exact Hall |].
      by intros f (Hf & _ & _). }
    rewrite Hstrip. apply filter_all.
    eapply Forall_impl; [exact Hall |]. by intros f (_ & Hf & _).
  - eapply Forall_impl; [exact Hall |]. by intros f (_ & _ & Hf).
Qed.

(** ** Rows and datasets *)

Section MoreRows.
Context {St : Type}.
Implicit Types (fake : Faker St) (generators : gmap string (gen St)).

(** X3.  The row builder trims every field name itself, so trimming the
    schema beforehand, as main does, changes nothing. *)
Theorem build_row_trims fake schema now st :
  build_row fake (strip <$> schema) now st = build_row fake schema now st.
Proof.
  unfold build_row. destruct (get_field_generators fake) as [generators|e]; [| done].
  generalize (@nil (string * value)). revert st.
  induction schema as [|field rest IH]; intros st row; [done |].
  rewrite fmap_cons. cbn [build_row_loop]. rewrite strip_idemp.
  destruct (resolve generators fake (strip field) now st) as [[v st1]|e];
    [apply IH | done].
Qed.

Lemma build_rows_add fake schema (n m : nat) now st :
  build_rows fake schema (n + m) now st
  = match build_rows fake schema n now st with
    | Ok (rows1, st1) =>
        match build_rows fake schema m now st1 with
        | Ok (rows2, st2) => Ok (rows1 ++ rows2, st2)
        | Raise e => Raise e
        end
    | Raise e => Raise e
    end.
Proof.
  revert st. induction n as [|n IH]; intros st.
  - cbn. by destruct (build_rows fake schema m now st) as [[rows2 st2]|e].
  - cbn [Nat.add build_rows].
    destruct (build_row fake schema now st) as [[row st1]|e]; [| done].
    rewrite IH.
    destruct (build_rows fake schema n now st1) as [[rows1 st2]|e]; [| done].
    by destruct (build_rows fake schema m now st2) as [[rows2 st3]|e].
Qed.

(** X4.  A dataset of [n + m] rows is the dataset of [n] rows followed by
    the dataset of [m] rows built from the generator state the first left:
    asking for more rows extends the dataset, it does not change its
    beginning. *)
Theorem dataset_extends fake schema (n m : Z) now st :
  0 ≤ n → 0 ≤ m →
  build_dataset fake schema (n + m) now st
  = match build_dataset fake schema n now st with
    | Ok (rows1, st1) =>
        match build_dataset fake schema m now st1 with
        | Ok (rows2, st2) => Ok (rows1 ++ rows2, st2)
        | Raise e => Raise e
        end
    | Raise e => Raise e
    end.
Proof.
  intros Hn Hm. unfold build_dataset.
  rewrite Z2Nat.inj_add by done. apply build_rows_add.
Qed.

(** X5.  The registry is built inside the row builder: when the provider
    lacks one of the attributes the registry reads, every run of at least
    one row raises that error whatever the schema, even the empty one, and
    a run of no row does not notice. *)
Theorem registry_failure_fails_every_row fake schema (count : Z) now st e :
  get_field_generators fake = Raise e →
  (0 < count → build_dataset fake schema count now st = Raise e)
  ∧ (count ≤ 0 → build_dataset fake schema count now st = Ok ([], st)).
Proof.
  intros Hreg. unfold build_dataset. split; intros Hc.
  - destruct (Z.to_nat count) as [|n] eqn:Hn; [lia |].
    cbn [build_rows]. unfold build_row. by rewrite Hreg.
  - by replace (Z.to_nat count) with 0%nat by lia.
Qed.

Lemma first_occurrences_length (seen ks : list string) :
  (length (first_occurrences seen ks) ≤ length ks)%nat
  ∧ (length (first_occurrences seen ks) = length ks
     ↔ NoDup ks ∧ ∀ x, x ∈ ks → x ∉ seen).
Proof.
  revert seen. induction ks as [|k ks IH]; intros seen.
  - cbn. split; [lia |]. split; [| done]. intros _. split; [constructor |].
    intros x Hx. by apply elem_of_nil in Hx.
  - cbn [first_occurrences length]. destruct (decide (k ∈ seen)) as [Hin|Hin].
    + destruct (IH seen) as [Hle _]. split; [lia |]. split; [lia |].
      intros [_ Hall]. destruct (Hall k); [apply list_elem_of_here | done].
    + destruct (IH (k :: seen)) as [Hle Heq]. cbn [length]. split; [lia |].
      rewrite NoDup_cons. split.
      * intros H. assert (H' : length (first_occurrences (k :: seen) ks) = length ks) by lia.
        apply Heq in H' as [Hnd Hall]. split_and!; [| done |].
        -- intros Hk. apply (Hall k Hk), list_elem_of_here.
        -- intros x [->|Hx]%elem_of_cons; [done |].
           intros Hs. apply (Hall x Hx). by apply list_elem_of_further.
      * intros [[Hk Hnd] Hall]. f_equal. apply Heq. split; [done |].
        intros x Hx [->|Hs]%elem_of_cons; [done |].
        apply (Hall x); [by apply list_elem_of_further | done].
Qed.

(** X6.  A record has at most as many entries as the schema has names, and
    exactly as many when no two names of the schema are equal once
    trimmed. *)
Theorem record_size fake schema now st row st' :
  build_row fake schema now st = Ok (row, st') →
  (length row ≤ length schema)%nat
  ∧ (length row = length schema ↔ NoDup (strip <$> schema)).
Proof.
  intros (g & tr & _ & _ & _ & Hkeys & _)%build_row_trace.
  assert (Hlen : length row = length (first_occurrences [] (strip <$> schema))).
  { rewrite <- Hkeys. unfold keys. by rewrite length_fmap. }
  destruct (first_occurrences_length [] (strip <$> schema)) as [Hle Heq].
  rewrite length_fmap in Hle, Heq. rewrite Hlen. split; [lia |].
  rewrite Heq. split; [tauto |]. intros Hnd. split; [done |].
  intros x _. apply not_elem_of_nil.
Qed.

Lemma first_occurrences_NoDup (seen ks : list string) :
  NoDup ks → (∀ x, x ∈ ks → x ∉ seen) → first_occurrences seen ks = ks.
Proof.
  revert seen. induction ks as [|k ks IH]; intros seen Hnd Hall; [done |].
  apply NoDup_cons in Hnd as [Hk Hnd]. cbn [first_occurrences].
  rewrite decide_False by (apply Hall, list_elem_of_here).
  f_equal. apply IH; [done |].
  intros x Hx [->|Hs]%elem_of_cons; [done |].
  by apply (Hall x); [apply list_elem_of_further |].
Qed.

(** X14.  When no two names of the schema are equal once trimmed, the keys
    of a record are the trimmed names in schema order: the objects of the
    json file list their keys as the csv header lists its columns. *)
Theorem distinct_schema_keeps_order fake schema now st row st' :
  NoDup (strip <$> schema) →
  build_row fake schema now st = Ok (row, st') →
  keys row = strip <$> schema.
Proof.
  intros Hnd (g & tr & _ & _ & _ & Hkeys & _)%build_row_trace.
  rewrite Hkeys. apply first_occurrences_NoDup; [done |].
  intros x _. apply not_elem_of_nil.
Qed.

(** X15.  The first resolution that raises ends the row with its error:
    the fields before it were resolved, the fields after it are not
    looked at. *)
Theorem first_failure_aborts fake generators (before after : list string)
    (field : string) now st tr st1 e :
  get_field_generators fake = Ok generators →
  resolve_each generators fake before now st = Ok (tr, st1) →
  resolve generators fake (strip field) now st1 = Raise e →
  build_row fake (before ++ field :: after) now st = Raise e.
Proof.
  intros Hreg Htr Hfail. unfold build_row. rewrite Hreg.
  generalize (@nil (string * value)). revert st tr Htr.
  induction before as [|f before IH]; intros st tr Htr row.
  - injection Htr as _ <-. cbn [app build_row_loop]. by rewrite Hfail.
  - cbn [resolve_each] in Htr. cbn [app build_row_loop].
    destruct (resolve generators fake (strip f) now st) as [[v st2]|e']; [| discriminate].
    destruct (resolve_each generators fake before now st2) as [[tr' st3]|e'] eqn:Hrest;
      [| discriminate].
    injection Htr as _ <-. by eapply IH.
Qed.

Lemma and_then_isoformat (c : gen St) now st :
  and_then c isoformat now st
  = match c now st with
    | Ok (VObj o, st') =>
        match obj_isoformat o with
        | Some s => Ok (VStr s, st')
        | None => Raise (AttributeError "isoformat")
        end
    | Ok (_, _) => Raise (AttributeError "isoformat")
    | Raise e => Raise e
    end.
Proof.
  unfold and_then. destruct (c now st) as [[v st']|e]; [| done].
  destruct v as [| | |o]; try done. cbn. by destruct (obj_isoformat o).
Qed.

(** The three entries that end in [.isoformat()], with the capability they
    call and its keyword arguments. *)
Lemma date_entry_lookup fake generators (key attr : string) (kw : kwargs)
    (g : gen St) :
  get_field_generators fake = Ok generators →
  (key, attr, kw)
    ∈ [("data_nascimento", "date_of_birth",
        [("minimum_age", py_int "18"); ("maximum_age", py_int "80")]);
       ("data", "date", []);
       ("timestamp", "date_time_between",
        [("start_date", VStr "-2y"); ("end_date", VStr "now")])] →
  generators !! key = Some g →
  g = and_then (call fake attr kw) isoformat.
Proof.
  intros Hreg Hin Hg.
  assert (Hat : ∀ i b, registry_literal fake !! i = Some (key, b) →
            eval_binding fake b = Ok g).
  { intros i b Hi. destruct (registry_lookup fake generators i key b Hreg Hi)
      as (g' & Hev & Hg'). rewrite Hg in Hg'. by injection Hg' as <-. }
  rewrite !elem_of_cons, elem_of_nil in Hin.
  destruct Hin as [Heq|[Heq|[Heq|[]]]]; injection Heq as -> -> ->.
  - specialize (Hat 6%nat _ eq_refl). by injection Hat as <-.
  - specialize (Hat 28%nat _ eq_refl). by injection Hat as <-.
  - specialize (Hat 30%nat _ eq_refl). by injection Hat as <-.
Qed.

(** X7.  The entries data_nascimento, data and timestamp return a string or
    raise: the ISO text when the capability returns an object that has
    [isoformat()], AttributeError when it returns anything else (a text, a
    number, None), and the capability's own error when it raises. *)
Theorem date_entries_isoformat fake generators (key attr : string) (kw : kwargs)
    (g : gen St) now st :
  get_field_generators fake = Ok generators →
  (key, attr, kw)
    ∈ [("data_nascimento", "date_of_birth",
        [("minimum_age", py_int "18"); ("maximum_age", py_int "80")]);
       ("data", "date", []);
       ("timestamp", "date_time_between",
        [("start_date", VStr "-2y"); ("end_date", VStr "now")])] →
  generators !! key = Some g →
  g now st
  = match call fake attr kw now st with
    | Ok (VObj o, st') =>
        match obj_isoformat o with
        | Some s => Ok (VStr s, st')
        | None => Raise (AttributeError "isoformat")
        end
    | Ok (_, _) => Raise (AttributeError "isoformat")
    | Raise e => Raise e
    end.
Proof.
  intros Hreg Hin Hg.
  rewrite (date_entry_lookup fake generators key attr kw g Hreg Hin Hg).
  apply and_then_isoformat.
Qed.

(** X8.  Whatever the provider returns, a value that the entries
    data_nascimento, data, timestamp and preco put in a record is one
    [json.dump] can write: a string for the three dates, a float for the
    price. *)
Theorem converted_entries_serialise fake generators (key : string) (g : gen St)
    now st v st' :
  get_field_generators fake = Ok generators →
  key ∈ ["data_nascimento"; "data"; "timestamp"; "preco"] →
  generators !! key = Some g →
  g now st = Ok (v, st') →
  json_serialisable v = true
  ∧ (key = "preco" → ∃ x, v = VFloat x)
  ∧ (key ≠ "preco" → ∃ s, v = VStr s).
Proof.
  intros Hreg Hin Hg Hv.
  assert (Hdate : ∀ attr kw, g = and_then (call fake attr kw) isoformat →
            ∃ s, v = VStr s).
  { intros attr kw ->. rewrite and_then_isoformat in Hv.
    destruct (call fake attr kw now st) as [[[| | |o] st1]|e]; try discriminate.
    destruct (obj_isoformat o) as [s|]; [| discriminate].
    injection Hv as <- _. by exists s. }
  rewrite !elem_of_cons, elem_of_nil in Hin.
  destruct Hin as [->|[->|[->|[->|[]]]]].
  - destruct (Hdate "date_of_birth" _
                (date_entry_lookup fake generators _ _ _ g Hreg
                   (list_elem_of_here _ _) Hg)) as [s ->].
    split_and!; [done | done | by exists s].
  - destruct (Hdate "date" _
                (date_entry_lookup fake generators _ _ _ g Hreg
                   (list_elem_of_further _ _ _ (list_elem_of_here _ _)) Hg)) as [s ->].
    split_and!; [done | done | by exists s].
  - destruct (Hdate "date_time_between" _
                (date_entry_lookup fake generators _ _ _ g Hreg
                   (list_elem_of_further _ _ _
                      (list_elem_of_further _ _ _ (list_elem_of_here _ _))) Hg))
      as [s ->].
    split_and!; [done | done | by exists s].
  - destruct (registry_lookup fake generators 25%nat "preco" _ Hreg eq_refl)
      as (g' & Hev & Hg'). rewrite Hg in Hg'. injection Hg' as <-.
    injection Hev as <-. unfold and_then in Hv.
    destruct (call fake "pyfloat" _ now st) as [[v0 st1]|e]; [| discriminate].
    cbn in Hv. destruct (float_of_2f v0) as [v1|e] eqn:H2f; [| discriminate].
    injection Hv as <- _.
    assert (∃ x, v1 = VFloat x) as [x ->].
    { destruct v0 as [| |x|o]; try discriminate.
      - injection H2f as <-. eauto.
      - cbn in H2f. destruct (obj_2f o); [| discriminate].
        injection H2f as <-. eauto. }
    split_and!; [done | by exists x | done].
Qed.

End MoreRows.

(** ** The writers and main *)

Lemma dict_to_list_Raise (fieldnames : list string) (row : dict) :
  Exists (fun k => k ∉ fieldnames) (keys row) →
  dict_to_list fieldnames row = Raise ValueError.
Proof.
  intros Hex. unfold dict_to_list.
  destruct (forallb (fun k => bool_decide (k ∈ fieldnames)) (keys row)) eqn:Hb;
    [| done].
  rewrite forallb_forall in Hb. apply Exists_exists in Hex as (k & Hk & Hno).
  destruct Hno. eapply bool_decide_eq_true. apply Hb. by apply list_elem_of_In.
Qed.

(** X9.  The csv writer accepts a dataset exactly when every key of every
    record is one of the field names: then it writes the header and the
    rows, otherwise it raises ValueError.  The values do not matter. *)
Theorem write_csv_accepts_iff (fieldnames : list string) (rows : list dict) :
  (Forall (fun row => Forall (fun k => k ∈ fieldnames) (keys row)) rows →
   write_csv fieldnames rows
   = Ok (String.concat EmptyString
           (writerow <$> (VStr <$> fieldnames) :: (row_values fieldnames <$> rows))))
  ∧ (Exists (fun row => Exists (fun k => k ∉ fieldnames) (keys row)) rows →
     write_csv fieldnames rows = Raise ValueError).
Proof.
  unfold write_csv. rewrite writeheader_Ok. split.
  - intros Hall. unfold writerows.
    rewrite (mapM_Ok_fmap _ (writerow ∘ row_values fieldnames)).
    + rewrite fmap_cons, concat_empty_cons, list_fmap_compose. done.
    + intros row Hrow. rewrite Forall_forall in Hall.
      rewrite dict_to_list_Ok; [done |].
      intros k Hk. specialize (Hall row Hrow). rewrite Forall_forall in Hall.
      by apply Hall.
  - intros Hex. unfold writerows.
    rewrite (mapM_Raise _ rows ValueError); [done | |].
    + intros row e. unfold dict_to_list.
      destruct (forallb _ _); [discriminate |]. by intros [= <-].
    + eapply Exists_impl; [exact Hex |]. intros row Hrow.
      by rewrite dict_to_list_Raise.
Qed.



Section MoreMain.
Context {St : Type}.
Implicit Types (lib : Library St) (env : Env St) (fake : Faker St).



(** X11.  The summary of a run that returns tells the truth: the number of
    lines is the number of rows asked for, or 0 for a negative number, and
    the fields are the parsed schema. *)
Theorem summary_is_truthful lib args env run :
  main lib args env = Ok run →
  Z.of_nat (run_lines run) = Z.max 0 (args_rows args)
  ∧ run_fields run = parse_schema (args_schema args).
Proof.
  unfold main. intros H.
  destruct (Faker_new lib (args_locale args)) as [fake|e]; [| discriminate].
  rewrite bind_Ok in H. cbv zeta in H.
  destruct (build_dataset fake (parse_schema (args_schema args)) (args_rows args)
              (clock env) _) as [[rows st']|e] eqn:Hds; [| discriminate].
  rewrite bind_Ok in H. unfold open_w, write_all in H.
  destruct (can_open env _); [| discriminate]. rewrite bind_Ok in H.
  destruct (serialise _ _ _) as [text|e]; [| discriminate].
  rewrite bind_Ok in H.
  destruct (can_write env _ _); [| discriminate]. rewrite bind_Ok in H.
  injection H as <-. cbn. split; [| done].
  apply build_rows_length in Hds. lia.
Qed.

(** X12.  The csv file of a run that returns reads back as one record for
    the header and one per row, the header being the fields of the summary,
    and every record has as many cells as there are fields, whatever
    commas, quotes or line ends the values hold. *)
Theorem csv_file_shape lib args env run :
  main lib args env = Ok run →
  args_format args = csv →
  ∃ records,
    csv_reader (run_text run) = Ok records
    ∧ length records = S (run_lines run)
    ∧ head records = Some (run_fields run)
    ∧ Forall (fun r => length r = length (run_fields run)) records.
Proof.
  unfold main. intros H Hfmt. rewrite Hfmt in H.
  destruct (Faker_new lib (args_locale args)) as [fake|e]; [| discriminate].
  rewrite bind_Ok in H. cbv zeta in H.
  destruct (build_dataset fake (parse_schema (args_schema args)) (args_rows args)
              (clock env) _) as [[rows st']|e] eqn:Hds; [| discriminate].
  rewrite bind_Ok in H. unfold open_w, write_all, serialise in H.
  destruct (can_open env _); [| discriminate].
  rewrite bind_Ok, write_csv_Ok, bind_Ok in H by by eapply dataset_keys.
  set (table := (VStr <$> parse_schema (args_schema args))
                :: (row_values (parse_schema (args_schema args)) <$> rows)) in H.
  set (text := String.concat EmptyString (writerow <$> table)) in H.
  destruct (can_write env _ text); [| discriminate]. rewrite bind_Ok in H.
  injection H as <-. cbn [run_text run_lines run_fields].
  exists (map (map field_text) table). split; [apply csv_reader_writer |].
  subst table. cbn [map head length]. rewrite field_text_VStr.
  split_and!; [| done |].
  - f_equal. change (list_fmap dict (list value)) with (@map dict (list value)).
    by rewrite !length_map.
  - constructor; [done |].
    apply Forall_forall. intros cells Hin.
    apply list_elem_of_In, in_map_iff in Hin as (vs & <- & Hvs).
    apply list_elem_of_In, list_elem_of_fmap in Hvs as (row & -> & _).
    unfold row_values. by rewrite !length_map.
Qed.


End MoreMain.

(** ** The further properties on concrete runs *)

Lemma parse_schema_entries_witness :
  "cpf" ∈ parse_schema " nome , cpf,, "
  ∧ strip "cpf" = "cpf" ∧ "cpf" ≠ EmptyString ∧ has_char comma "cpf" = false.
Proof.
  assert (Hin : "cpf" ∈ parse_schema " nome , cpf,, ").
  { apply (bool_decide_unpack ("cpf" ∈ parse_schema " nome , cpf,, ")).
    vm_compute. exact I. }
  split; [exact Hin |].
  apply (parse_schema_entries " nome , cpf,, " "cpf"). exact Hin.
Defined.

Lemma parse_schema_join_witness :
  Forall (fun f => strip f = f ∧ f ≠ EmptyString ∧ has_char comma f = false)
    DEFAULT_SCHEMA
  ∧ parse_schema (args_schema default_args) = DEFAULT_SCHEMA.
Proof.
  assert (Hall : Forall (fun f => strip f = f ∧ f ≠ EmptyString
                                  ∧ has_char comma f = false) DEFAULT_SCHEMA).
  { unfold DEFAULT_SCHEMA. repeat constructor; discriminate. }
  split; [exact Hall |].
  apply (parse_schema_join DEFAULT_SCHEMA). exact Hall.
Defined.

Lemma dataset_extends_witness :
  0 ≤ 1 ∧ 0 ≤ 2
  ∧ build_dataset sample_en_US ["nome"; "zz"] (1 + 2) 0 0%nat
    = match build_dataset sample_en_US ["nome"; "zz"] 1 0 0%nat with
      | Ok (rows1, st1) =>
          match build_dataset sample_en_US ["nome"; "zz"] 2 0 st1 with
          | Ok (rows2, st2) => Ok (rows1 ++ rows2, st2)
          | Raise e => Raise e
          end
      | Raise e => Raise e
      end.
Proof.
  split; [lia |]. split; [lia |].
  apply (dataset_extends sample_en_US ["nome"; "zz"] 1 2 0 0%nat); lia.
Defined.

Lemma registry_failure_fails_every_row_witness :
  get_field_generators sample_no_state = Raise (AttributeError "state")
  ∧ 0 < 3
  ∧ build_dataset sample_no_state [] 3 0 0%nat = Raise (AttributeError "state").
Proof.
  split; [reflexivity |]. split; [lia |].
  apply (registry_failure_fails_every_row sample_no_state [] 3 0 0%nat
           (AttributeError "state")); [reflexivity | lia].
Defined.

Lemma record_size_witness :
  build_row sample_en_US ["nome"; " zz "; "nome "] 0 0%nat
  = Ok ([("nome", VStr "name"); ("zz", VNone)], 2%nat)
  ∧ (length [("nome", VStr "name"); ("zz", VNone)]
     ≤ length ["nome"; " zz "; "nome "])%nat.
Proof.
  split; [reflexivity |].
  apply (record_size sample_en_US ["nome"; " zz "; "nome "] 0 0%nat _ 2%nat).
  reflexivity.
Defined.

Lemma date_entries_isoformat_witness :
  get_field_generators sample_en_US = Ok sample_en_generators
  ∧ sample_en_generators !! "data"
    = Some (and_then (call sample_en_US "date" []) isoformat)
  ∧ call sample_en_US "date" [] 0 0%nat = Ok (VStr "date", 1%nat)
  ∧ and_then (call sample_en_US "date" []) isoformat 0 0%nat
    = Raise (AttributeError "isoformat").
Proof.
  split; [reflexivity |]. split; [reflexivity |]. split; [reflexivity |].
  rewrite (date_entries_isoformat sample_en_US sample_en_generators
             "data" "date" [] _ 0 0%nat eq_refl);
    [reflexivity | | reflexivity].
  apply list_elem_of_further, list_elem_of_here.
Defined.

Lemma converted_entries_serialise_witness :
  get_field_generators sample_en_US = Ok sample_en_generators
  ∧ "preco" ∈ ["data_nascimento"; "data"; "timestamp"; "preco"]
  ∧ json_serialisable (VFloat (PyFloat "12.34" "12.34")) = true.
Proof.
  assert (Hin : "preco" ∈ ["data_nascimento"; "data"; "timestamp"; "preco"]).
  { do 3 apply list_elem_of_further. apply list_elem_of_here. }
  split; [reflexivity |]. split; [exact Hin |].
  apply (converted_entries_serialise sample_en_US sample_en_generators "preco"
           (and_then (call sample_en_US "pyfloat"
                        [("left_digits", py_int "3"); ("right_digits", py_int "2");
                         ("positive", py_True)]) float_of_2f)
           0 0%nat (VFloat (PyFloat "12.34" "12.34")) 1%nat);
    [reflexivity | exact Hin | reflexivity | reflexivity].
Defined.

Lemma write_csv_accepts_iff_witness :
  Exists (fun row => Exists (fun k => k ∉ [" nome"]) (keys row))
    [[("nome", VStr "name")]]
  ∧ write_csv [" nome"] [[("nome", VStr "name")]] = Raise ValueError.
Proof.
  assert (Hex : Exists (fun row => Exists (fun k => k ∉ [" nome"]) (keys row))
                  [[("nome", VStr "name")]]).
  { do 2 apply Exists_cons_hd. intros [H|H]%elem_of_cons; [discriminate H |].
    by apply elem_of_nil in H. }
  split; [exact Hex |].
  apply (write_csv_accepts_iff [" nome"] [[("nome", VStr "name")]]). exact Hex.
Defined.


Lemma summary_is_truthful_witness :
  main sample_library (sample_args csv "nome, zz" (-4))
    (sample_env 0 0)
  = Ok {| run_path := Given "out"; run_text := writerow [VStr "nome"; VStr "zz"];
          run_fields := ["nome"; "zz"]; run_lines := 0 |}
  ∧ Z.of_nat 0 = Z.max 0 (-4).
Proof.
  split; [reflexivity |].
  apply (summary_is_truthful sample_library (sample_args csv "nome, zz" (-4))
           (sample_env 0 0)
           {| run_path := Given "out"; run_text := writerow [VStr "nome"; VStr "zz"];
              run_fields := ["nome"; "zz"]; run_lines := 0 |}).
  reflexivity.
Defined.

Lemma csv_file_shape_witness :
  (∃ run, main sample_library (sample_args csv "nome, zz" 2)
            (sample_env 0 0) = Ok run)
  ∧ args_format (sample_args csv "nome, zz" 2) = csv
  ∧ ∃ run records,
      main sample_library (sample_args csv "nome, zz" 2)
        (sample_env 0 0) = Ok run
      ∧ csv_reader (run_text run) = Ok records
      ∧ length records = 3%nat.
Proof.
  split; [eexists; reflexivity |]. split; [reflexivity |].
  eexists. 
  destruct (csv_file_shape sample_library (sample_args csv "nome, zz" 2)
              (sample_env 0 0) _ eq_refl eq_refl)
    as (records & Hread & Hlen & _).
  exists records. split; [reflexivity |]. split; [exact Hread | exact Hlen].
Defined.


Lemma distinct_schema_keeps_order_witness :
  NoDup (strip <$> ["zz "; " nome"])
  ∧ build_row sample_en_US ["zz "; " nome"] 0 0%nat
    = Ok ([("zz", VNone); ("nome", VStr "name")], 1%nat)
  ∧ keys [("zz", VNone); ("nome", VStr "name")] = strip <$> ["zz "; " nome"].
Proof.
  assert (Hnd : NoDup (strip <$> ["zz "; " nome"])).
  { apply (bool_decide_unpack (NoDup (strip <$> ["zz "; " nome"]))).
    vm_compute. exact I. }
  split; [exact Hnd |]. split; [reflexivity |].
  apply (distinct_schema_keeps_order sample_en_US ["zz "; " nome"] 0 0%nat _ 1%nat);
    [exact Hnd | reflexivity].
Defined.

Lemma first_failure_aborts_witness :
  get_field_generators sample_en_US = Ok sample_en_generators
  ∧ resolve_each sample_en_generators sample_en_US ["nome"] 0 0%nat
    = Ok ([("nome", VStr "name")], 1%nat)
  ∧ resolve sample_en_generators sample_en_US (strip "cpf") 0 1%nat
    = Raise (AttributeError "cpf")
  ∧ build_row sample_en_US (["nome"] ++ "cpf" :: ["email"]) 0 0%nat
    = Raise (AttributeError "cpf").
Proof.
  split; [reflexivity |]. split; [reflexivity |]. split; [reflexivity |].
  apply (first_failure_aborts sample_en_US sample_en_generators ["nome"] ["email"]
           "cpf" 0 0%nat [("nome", VStr "name")] 1%nat (AttributeError "cpf"));
    reflexivity.
Defined.

